(** * ArchCommands: a shallow embedding of src/Mod/BIM/ArchCommands.py

    The module is glue between a document-object graph and a B-rep kernel.
    The embedding keeps the control flow, the list handling and the error
    paths of the Python functions, and takes the host application (geometry
    kernel, mesh library, document API) as an interface whose operations are
    deterministic oracles.

    Conventions used throughout:
    - a Python exception is a value of [exn]; a function that can raise
      returns a [result];
    - code with side effects on the host runs in the monad [Py S], a state
      and error monad in which the state survives a raised exception, as
      it does in Python;
    - a Python float is only ever compared in the modelled code, never
      computed with (the arithmetic happens inside the host); finite floats
      are rationals, so the model type is [Q] with its order;
    - reading a list-valued property of a document object ([host.Axes],
      [o.Hosts], ...) yields a fresh Python list: the code's own
      read-modify-write idiom ([g = o.Hosts; g.append(host); o.Hosts = g])
      relies on it, and the model follows it. *)

From Stdlib Require Import QArith Lqa.
From stdpp Require Import base list strings functions gmap.

Open Scope string_scope.
Open Scope list_scope.

(** ** Exceptions and the effect monad *)

Inductive exn : Type :=
| RuntimeError
| ValueError
| IndexError
| NameError
| UnboundLocalError
| TypeError
| AttributeError
| OCCError.

#[global] Instance exn_eq_dec : EqDecision exn.
Proof. solve_decision. Defined.

Inductive result (A : Type) : Type :=
| Ok (a : A)
| Raise (e : exn).

Arguments Ok {A} a.
Arguments Raise {A} e.

(** [Py S A]: a computation over host state [S] that returns an [A] or
    raises; the state reached is returned in both cases. *)
Definition Py (S A : Type) : Type := S -> result A * S.

Definition ret {S A} (a : A) : Py S A := fun s => (Ok a, s).

Definition raise {S A} (e : exn) : Py S A := fun s => (Raise e, s).

Definition bind {S A B} (m : Py S A) (k : A -> Py S B) : Py S B :=
  fun s => match m s with
           | (Ok a, s') => k a s'
           | (Raise e, s') => (Raise e, s')
           end.

(** [lift r]: a host call whose outcome [r] does not touch the state. *)
Definition lift {S A} (r : result A) : Py S A := fun s => (r, s).

(** [try_except m caught handler]: Python's [try: m / except E: handler],
    where [caught] tells which exceptions the clause names. *)
Definition try_except {S A} (m : Py S A) (caught : exn -> bool)
    (handler : Py S A) : Py S A :=
  fun s => match m s with
           | (Ok a, s') => (Ok a, s')
           | (Raise e, s') => if caught e then handler s' else (Raise e, s')
           end.

(** [except Exception] catches everything; [except Part.OCCError] one class. *)
Definition any_exception (e : exn) : bool := true.
Definition is_OCCError (e : exn) : bool := bool_decide (e = OCCError).

Declare Scope py_scope.
Delimit Scope py_scope with py.
Notation "'let*' x ':=' m 'in' k" := (bind m (fun x => k))
  (at level 10, x pattern, m at level 100, k at level 200) : py_scope.
Open Scope py_scope.

(** A Python [for x in l: acc = body(acc, x)] loop. *)
Fixpoint for_each {S A B} (l : list B) (body : A -> B -> Py S A) (acc : A)
    : Py S A :=
  match l with
  | [] => ret acc
  | x :: l' => let* acc' := body acc x in for_each l' body acc'
  end.

(** [l.remove(x)]: drops the first element equal to [x]; [None] stands for
    the [ValueError] Python raises when there is none. *)
Fixpoint list_remove {A} `{EqDecision A} (x : A) (l : list A)
    : option (list A) :=
  match l with
  | [] => None
  | y :: l' => if decide (y = x) then Some l'
               else option_map (cons y) (list_remove x l')
  end.

(** ** getStringList (lines 57-66) *)

Module StringList.

(** The only attribute of a document object the function reads. *)
Record DocumentObject : Type := { Name : string }.

(** Lines 62-64: one iteration of the loop. *)
Definition append_name (result : string) (o : DocumentObject) : string :=
  let result :=
    if (1 <? String.length result)%nat then result +:+ "," else result in
  result +:+ "FreeCAD.ActiveDocument." +:+ Name o.

Definition getStringList (objects : list DocumentObject) : string :=
  fold_left append_name objects "[" +:+ "]".

(** What the claim calls the qualified name of an object. *)
Definition qualified (o : DocumentObject) : string :=
  "FreeCAD.ActiveDocument." +:+ Name o.

(** The names that follow the first one, each behind its comma. *)
Fixpoint comma_tail (objects : list DocumentObject) : string :=
  match objects with
  | [] => ""
  | o :: objects' => "," +:+ qualified o +:+ comma_tail objects'
  end.

End StringList.

(** ** makeFace (lines 330-385) *)

Module MakeFace.

(** [makeFace] accepts either one wire or a Python list of wires. *)
Inductive WiresArg (W : Type) : Type :=
| SingleWire (w : W)
| WireList (ws : list W).

Arguments SingleWire {W} w.
Arguments WireList {W} ws.

(** The part of the geometry kernel the function touches. [Part.Face] and
    [cut] can fail; [DiagonalLength] is [w.BoundBox.DiagonalLength]. A
    [Wire] of the list given is a wire object, known by the wire it is when
    [makeFace] is called: two entries that are equal are one object listed
    twice, and [wires.remove(ext)] drops the first entry that is the object
    [ext]. [kernel_reverse w] is the wire [w] becomes under
    [w.reverse()]. *)
Class PartKernel : Type := {
  Wire : Type;
  Vertex : Type;
  Shape : Type;
  Wire_eq_dec :: EqDecision Wire;
  Vertexes : Wire -> list Vertex;
  DiagonalLength : Wire -> Q;
  kernel_Face : WiresArg Wire -> result Shape;
  kernel_cut : Shape -> Shape -> result Shape;
  kernel_reverse : Wire -> Wire;
  Faces : Shape -> list Shape
}.

(** The kernel calls a run makes, in order: the state of [makeFace]. *)
Inductive PartCall `{PartKernel} : Type :=
| Call_Face (a : WiresArg Wire)
| Call_cut (mf f : Shape)
| Call_reverse (w : Wire).

Section WithKernel.
Context `{K : PartKernel}.

Definition Part_Face (a : WiresArg Wire) : Py (list PartCall) Shape :=
  fun log => (kernel_Face a, log ++ [Call_Face a]).

Definition cut (mf f : Shape) : Py (list PartCall) Shape :=
  fun log => (kernel_cut mf f, log ++ [Call_cut mf f]).

(** [w.reverse()] reverses the wire object in place: under every entry of
    the list that holds it, under [ext] when [ext] is that object, and for
    the caller, who shares the objects. [present] tells, for every wire
    object, the wire it is now; the call reverses that one. *)
Definition reverse (present : Wire -> Wire) (w : Wire)
    : Py (list PartCall) (Wire -> Wire) :=
  fun log => (Ok (<[w := kernel_reverse (present w)]> present),
              log ++ [Call_reverse w]).

(** Lines 348-360: the scan for the exterior wire, [(ext, max_length)]
    starting from [(None, 0)]. *)
Definition scan_step (st : option Wire * Q) (w : Wire) : option Wire * Q :=
  if Qlt_le_dec (snd st) (DiagonalLength w)
  then (Some w, DiagonalLength w)
  else st.

Definition find_exterior (wires : list Wire) : option Wire * Q :=
  fold_left scan_step wires (None, 0%Q).

(** [mf.Faces[0]] *)
Definition first_face (mf : Shape) : Py (list PartCall) Shape :=
  match Faces mf with
  | f :: _ => ret f
  | [] => raise IndexError
  end.

(** Lines 378-385, method 2: a face on the exterior wire, every other wire
    cut out of it as a face of its own. *)
Definition cut_holes (ext : Wire) (holes : list Wire)
    : Py (list PartCall) Shape :=
  let* mf := Part_Face (SingleWire ext) in
  let* mf := for_each holes
               (fun mf w => let* f := Part_Face (SingleWire w) in cut mf f)
               mf in
  first_face mf.

(** Lines 365-375, method 1: the wire objects left in the list reversed one
    entry after the other, the exterior one put first, one [Part.Face] on
    the whole list, which holds the objects as they are by then. The list
    is never empty after [insert], so the [if wires] test has no other
    branch. *)
Definition reversed_holes (ext : Wire) (holes : list Wire)
    : Py (list PartCall) Shape :=
  let* present := for_each holes reverse id in
  Part_Face (WireList (map present (ext :: holes))).

(** Lines 351-353: [DraftGeomUtils] is not imported in this scope, so the
    first iteration of the clean-up loop raises [NameError]. *)
Definition clean_up (cleanup : bool) (wires : list Wire)
    : Py (list PartCall) (list Wire) :=
  if cleanup then
    match wires with
    | [] => ret wires
    | _ :: _ => raise NameError
    end
  else ret wires.

Definition makeFace (wires : WiresArg Wire) (method : Z) (cleanup : bool)
    : Py (list PartCall) Shape :=
  match wires with
  | SingleWire w =>
      if (length (Vertexes w) <? 3)%nat then raise RuntimeError
      else Part_Face (SingleWire w)
  | WireList [w] =>
      if (length (Vertexes w) <? 3)%nat then raise RuntimeError
      else Part_Face (SingleWire w)
  | WireList wires =>
      let* wires := clean_up cleanup wires in
      match fst (find_exterior wires) with
      | None => raise ValueError
      | Some ext =>
          match list_remove ext wires with
          | None => raise ValueError
          | Some holes =>
              if (method =? 1)%Z then reversed_holes ext holes
              else cut_holes ext holes
          end
      end
  end.

(** The claim's words for the holes: a face is made of each hole and cut
    from the face [mf] in turn. The outcome, and the kernel calls made; a
    call that raises ends the work. *)
Fixpoint cut_in_turn (mf : Shape) (holes : list Wire)
    : result Shape * list PartCall :=
  match holes with
  | [] => (Ok mf, [])
  | w :: holes' =>
      match kernel_Face (SingleWire w) with
      | Ok f =>
          match kernel_cut mf f with
          | Ok mf' =>
              let (r, calls) := cut_in_turn mf' holes' in
              (r, Call_Face (SingleWire w) :: Call_cut mf f :: calls)
          | Raise e => (Raise e, [Call_Face (SingleWire w); Call_cut mf f])
          end
      | Raise e => (Raise e, [Call_Face (SingleWire w)])
      end
  end.

(** The claim's words for method 2: a face is built on the exterior wire,
    each hole face is cut from it in turn, and the first face of the final
    cut result is returned. *)
Definition face_with_holes (ext : Wire) (holes : list Wire)
    : result Shape * list PartCall :=
  match kernel_Face (SingleWire ext) with
  | Ok mf =>
      let (r, calls) := cut_in_turn mf holes in
      (match r with
       | Ok final => match Faces final with
                     | f :: _ => Ok f
                     | [] => Raise IndexError
                     end
       | Raise e => Raise e
       end,
       Call_Face (SingleWire ext) :: calls)
  | Raise e => (Raise e, [Call_Face (SingleWire ext)])
  end.

(** The reading of the exterior-wire rule: [ext] is the first wire of the
    list with the largest diagonal; the call returns what the claim's
    method 2 gives on it and on the list without it, and makes the kernel
    calls of that method and no other. *)
Definition exterior_then_holes (wires : list Wire) : Prop :=
  exists (pre : list Wire) (ext : Wire) (post : list Wire),
    wires = pre ++ ext :: post /\
    (forall w, w ∈ pre -> (DiagonalLength w < DiagonalLength ext)%Q) /\
    (forall w, w ∈ post -> (DiagonalLength w <= DiagonalLength ext)%Q) /\
    forall log, makeFace (WireList wires) 2 false log
                = ((face_with_holes ext (pre ++ post)).1,
                   log ++ (face_with_holes ext (pre ++ post)).2).

End WithKernel.

(** A symbolic kernel for running the model: a wire is its bounding-box
    diagonal and its number of vertexes, a shape is the term that built it. *)
Inductive SymShape : Type :=
| SymFace (a : WiresArg (Z * nat))
| SymCut (mf f : SymShape).

#[local] Instance sym_kernel : PartKernel := {|
  Wire := Z * nat;
  Vertex := unit;
  Shape := SymShape;
  Vertexes w := replicate (snd w) tt;
  DiagonalLength w := inject_Z (fst w);
  kernel_Face a := Ok (SymFace a);
  kernel_cut mf f := Ok (SymCut mf f);
  kernel_reverse w := w;
  Faces s := [s]
|}.

(** The same kernel with wires that have a direction, which [reverse]
    turns. *)
Inductive SymFaceOf : Type :=
| FaceOf (a : WiresArg (Z * bool)).

#[local] Instance oriented_kernel : PartKernel := {|
  Wire := Z * bool;
  Vertex := unit;
  Shape := SymFaceOf;
  Vertexes w := replicate 4 tt;
  DiagonalLength w := inject_Z (fst w);
  kernel_Face a := Ok (FaceOf a);
  kernel_cut mf f := Ok mf;
  kernel_reverse w := (fst w, negb (snd w));
  Faces s := [s]
|}.

End MakeFace.

(** ** pruneIncluded (lines 758-810) *)

Module Prune.

(** A document object is known by its identity: Python's [==] and [in] on
    document objects compare identities. *)
Definition oid : Type := nat.

(** The attributes [pruneIncluded] reads. An attribute only some objects
    carry is an [option] ([None]: [hasattr] is false); a link that can be
    unset is an [option] of its own. *)
Record DocumentObject : Type := {
  Name : string;
  Label : string;
  (** [Draft.getType(obj)] *)
  DraftType : string;
  (** the type names [obj.isDerivedFrom] answers true for *)
  TypeIds : list string;
  TypeId : option string;
  InList : list oid;
  BaseFeature : option oid;
  Host : option (option oid);
  Hosts : option (list oid);
  CloneOf : option (option oid)
}.

Definition newline : string := String (Ascii.ascii_of_nat 10) "".

Section WithDocument.
(** The objects the identities stand for. *)
Variable doc : oid -> DocumentObject.

Definition isDerivedFrom (o : oid) (type : string) : bool :=
  bool_decide (type ∈ TypeIds (doc o)).

(** Line 767 *)
Definition never_pruned_types : list string :=
  ["Window"; "Clone"; "Pipe"; "Rebar"; "Roof"].

(** Lines 774-777 *)
Definition ignored_parent_types : list string :=
  ["BezCurve"; "BSpline"; "Clone"; "Facebinder"; "Wire";
   "Project"; "Roof"; "Site"; "Space"; "Window"].

(** Lines 769-801: the [if]/[elif] chain on one parent; [true] when it ends
    in [toplevel = False], [false] when it ends in [pass]. *)
Definition parent_includes (obj parent : oid) : bool :=
  if negb (isDerivedFrom parent "Part::Feature") then false
  else if isDerivedFrom parent "Part::Part2DObject" then false
  else if bool_decide (DraftType (doc parent) ∈ ignored_parent_types) then false
  else if isDerivedFrom parent "PartDesign::FeatureBase" then false
  else if isDerivedFrom parent "PartDesign::Body"
          && bool_decide (BaseFeature (doc parent) = Some obj) then false
  else if isDerivedFrom parent "PartDesign::SubShapeBinder"
          || bool_decide (TypeId (doc parent) = Some "PartDesign::ShapeBinder")
       then false
  else if bool_decide (Host (doc parent) = Some (Some obj)) then false
  else if match Hosts (doc parent) with
          | Some hosts => bool_decide (obj ∈ hosts)
          | None => false
          end then false
  else if bool_decide (TypeId (doc parent) = Some "Part::Mirroring") then false
  else match CloneOf (doc parent) with
       | Some (Some original) =>
           negb (bool_decide (Name (doc original) = Name (doc obj)))
       | Some None => true
       | None => true
       end.

(** Lines 768-805: the body of the loop over [obj.InList]. *)
Definition visit_parent (objectslist newlist : list oid) (strict : bool)
    (obj : oid) (toplevel : bool) (parent : oid) : bool :=
  let toplevel := if parent_includes obj parent then false else toplevel in
  if negb toplevel && strict then
    if bool_decide (parent ∉ objectslist) && bool_decide (parent ∉ newlist)
    then true else toplevel
  else toplevel.

(** Lines 765-805: the value of [toplevel] when line 806 tests it. *)
Definition is_toplevel (objectslist newlist : list oid) (strict : bool)
    (obj : oid) : bool :=
  if isDerivedFrom obj "Part::Feature" then
    if bool_decide (DraftType (doc obj) ∉ never_pruned_types) then
      fold_left (visit_parent objectslist newlist strict obj) (InList (doc obj))
                true
    else true
  else true.

(** The state of the outer loop: [newlist] and the warnings printed. *)
Definition prune_step (objectslist : list oid) (strict silent : bool)
    (st : list oid * list string) (obj : oid) : list oid * list string :=
  let '(newlist, console) := st in
  if is_toplevel objectslist newlist strict obj then
    (newlist ++ [obj], console)
  else if silent then (newlist, console)
  else (newlist, console ++ ["pruning " +:+ Label (doc obj) +:+ newline]).

(** Returns [newlist] together with what [PrintWarning] was given. *)
Definition pruneIncluded (objectslist : list oid) (strict silent : bool)
    : list oid * list string :=
  fold_left (prune_step objectslist strict silent) objectslist ([], []).

(** The objects the function never looks at the parents of. *)
Definition always_kept (obj : oid) : Prop :=
  isDerivedFrom obj "Part::Feature" = false \/
  DraftType (doc obj) ∈ never_pruned_types.

End WithDocument.

(** A small document: a wall (0) holding a window (1) and a box (2) in its
    additions, a mesh (3) and a second wall (4) held by wall 0. *)
Definition plain (name type : string) (types : list string)
    (parents : list oid) : DocumentObject :=
  {| Name := name; Label := name; DraftType := type; TypeIds := types;
     TypeId := None; InList := parents; BaseFeature := None; Host := None;
     Hosts := None; CloneOf := None |}.

Definition sample_doc (o : oid) : DocumentObject :=
  match o with
  | 0%nat => plain "Wall" "Wall" ["Part::Feature"] []
  | 1%nat => plain "Window" "Window" ["Part::Feature"] [0%nat]
  | 2%nat => plain "Box" "Part" ["Part::Feature"] [0%nat]
  | 3%nat => plain "Mesh" "Mesh" ["Mesh::Feature"] [0%nat]
  | _ => plain "Wall001" "Wall" ["Part::Feature"] [0%nat]
  end.

End Prune.

(** ** getExtrusionData (lines 1275-1355) *)

(** Code without host state: [result] alone, with its own bind. *)
Definition result_bind {A B} (r : result A) (k : A -> result B) : result B :=
  match r with
  | Ok a => k a
  | Raise e => Raise e
  end.

Notation "'let?' x ':=' r 'in' k" := (result_bind r (fun x => k))
  (at level 10, x pattern, r at level 100, k at level 200) : py_scope.

(** [l.sort(key=key)]: Python's sort is stable and compares keys with [<];
    the stable sorted arrangement of a list is unique, and insertion from
    the right builds it. *)
Fixpoint insert_by {A} (key : A -> Q) (a : A) (sorted : list A) : list A :=
  match sorted with
  | [] => [a]
  | b :: sorted' =>
      if Qlt_le_dec (key b) (key a) then b :: insert_by key a sorted'
      else a :: b :: sorted'
  end.

Fixpoint sort_by {A} (key : A -> Q) (l : list A) : list A :=
  match l with
  | [] => []
  | a :: l' => insert_by key a (sort_by key l')
  end.

(** The head of a list has the least key of the list. *)
Definition head_least {A} (key : A -> Q) (l : list A) : Prop :=
  match l with
  | [] => True
  | v :: _ => forall u, u ∈ l -> (key v <= key u)%Q
  end.

Module Extrusion.

Record Vector : Type := { x : Q; y : Q; z : Q }.

(** The kernel as [getExtrusionData] sees it. [normalAt00 f] is
    [f.normalAt(0,0)], [None] when the kernel raises [Part.OCCError].
    [getAngle_round4 a b] is [round(a.getAngle(b),4)] counted in
    ten-thousandths of a radian, so that [== 3.1416] reads [= 31416] and
    [!= 1.5708] reads [<> 15708]; [sub] and [Length] are the vector
    operations of the host. *)
Class GeomKernel : Type := {
  Face : Type;
  Shape : Type;
  isNull : Shape -> bool;
  Solids : Shape -> list Shape;
  Faces : Shape -> list Face;
  hashCode : Face -> Z;
  normalAt00 : Face -> option Vector;
  CenterOfMass : Face -> Vector;
  Area : Face -> Q;
  getAngle_round4 : Vector -> Vector -> Z;
  sub : Vector -> Vector -> Vector;
  Length : Vector -> Q
}.

(** The [sortmethod] argument: the two strings the code tests for, a 3D
    point, or any other value (on which [sub] raises [TypeError]). *)
Inductive SortMethod : Type :=
| by_area
| by_z
| by_point (p : Vector)
| by_other (s : string).

Section WithKernel.
Context `{K : GeomKernel}.

(** Lines 1315-1321: the list [faces] of [[f, normal]] items. *)
Fixpoint faces_with_normals (fs : list Face) : option (list (Face * Vector)) :=
  match fs with
  | [] => Some []
  | f :: fs' =>
      match normalAt00 f with
      | None => None
      | Some n => option_map (cons (f, n)) (faces_with_normals fs')
      end
  end.

Definition enumerate {A} (l : list A) : list (nat * A) := imap pair l.

(** Lines 1326-1327 *)
Definition opposite (f1 f2 : Face * Vector) : bool :=
  negb (hashCode f1.1 =? hashCode f2.1)%Z
  && (getAngle_round4 f1.2 f2.2 =? 31416)%Z.

(** Lines 1323-1328 *)
Definition find_pairs (faces : list (Face * Vector)) : list (nat * nat) :=
  flat_map
    (fun '(i1, f1) =>
       flat_map (fun '(i2, f2) => if opposite f1 f2 then [(i1, i2)] else [])
                (enumerate faces))
    (enumerate faces).

(** Lines 1333-1339: [ok] after the loop over all faces. *)
Definition others_perpendicular (faces : list (Face * Vector))
    (f1 f2 : Face * Vector) : bool :=
  forallb
    (fun f =>
       bool_decide (hashCode f.1 ∈ [hashCode f1.1; hashCode f2.1])
       || (getAngle_round4 f.2 f1.2 =? 15708)%Z)
    faces.

(** Lines 1342-1345: the item appended to [valids]. *)
Definition candidate (f1 f2 : Face * Vector) : Face * Vector :=
  if Qlt_le_dec (z (CenterOfMass f1.1)) (z (CenterOfMass f2.1))
  then (f1.1, sub (CenterOfMass f2.1) (CenterOfMass f1.1))
  else (f2.1, sub (CenterOfMass f1.1) (CenterOfMass f2.1)).

(** Lines 1331-1345; an index out of range would be an [IndexError]. *)
Fixpoint find_valids (faces : list (Face * Vector)) (pairs : list (nat * nat))
    : result (list (Face * Vector)) :=
  match pairs with
  | [] => Ok []
  | (i1, i2) :: pairs' =>
      match faces !! i1, faces !! i2 with
      | Some f1, Some f2 =>
          let? rest := find_valids faces pairs' in
          Ok (if others_perpendicular faces f1 f2
              then candidate f1 f2 :: rest else rest)
      | _, _ => Raise IndexError
      end
  end.

(** Lines 1347-1353: the key the candidates are sorted by, a function of
    the candidate's face [v[0]]. *)
Definition sort_key (sortmethod : SortMethod) : option (Face -> Q) :=
  match sortmethod with
  | by_z => Some (fun f => z (CenterOfMass f))
  | by_area => Some (fun f => Area f)
  | by_point p => Some (fun f => Length (sub (CenterOfMass f) p))
  | by_other _ => None
  end.

Definition getExtrusionData (shape : Shape) (sortmethod : SortMethod)
    : result (option (Face * Vector)) :=
  if isNull shape then Ok None
  else match Solids shape with
  | [] => Ok None
  | _ :: _ =>
  if (length (Faces shape) <? 3)%nat then Ok None
  else match faces_with_normals (Faces shape) with
  | None => Ok None
  | Some faces =>
  match find_pairs faces with
  | [] => Ok None
  | pairs =>
      let? valids := find_valids faces pairs in
      match valids with
      | [] => Ok None
      | _ :: _ =>
          match sort_key sortmethod with
          | None => Raise TypeError
          | Some key =>
              match sort_by (fun v => key v.1) valids with
              | v :: _ => Ok (Some v)
              | [] => Raise IndexError
              end
          end
      end
  end end end.

(** Two faces of distinct hash codes whose normals are opposite. *)
Definition opposite_normals (f1 f2 : Face) : Prop :=
  hashCode f1 <> hashCode f2 /\
  exists n1 n2, normalAt00 f1 = Some n1 /\ normalAt00 f2 = Some n2 /\
                getAngle_round4 n1 n2 = 31416%Z.

Definition has_opposite_pair (shape : Shape) : Prop :=
  exists f1 f2, f1 ∈ Faces shape /\ f2 ∈ Faces shape /\ opposite_normals f1 f2.

(** A valid pair: opposite normals, and every face outside the pair has its
    normal at a right angle from the normal of the pair's first face. *)
Definition valid_pair (shape : Shape) (f1 f2 : Face) : Prop :=
  f1 ∈ Faces shape /\ f2 ∈ Faces shape /\ opposite_normals f1 f2 /\
  forall f, f ∈ Faces shape ->
    hashCode f <> hashCode f1 -> hashCode f <> hashCode f2 ->
    exists n n1, normalAt00 f = Some n /\ normalAt00 f1 = Some n1 /\
                 getAngle_round4 n n1 = 15708%Z.

(** [base], with [other], is the member of the pair [f1], [f2] with the
    lower centre of mass. *)
Definition lower_of (f1 f2 base other : Face) : Prop :=
  ((base = f1 /\ other = f2) \/ (base = f2 /\ other = f1)) /\
  (z (CenterOfMass base) <= z (CenterOfMass other))%Q.

(** The claim's words for the choice among the candidates: the base face
    [base] comes no later than the base face [b] when, for "area", its
    area is no larger; for "z", its centre of mass is no higher; for a 3D
    point, its centre of mass is no farther from the point. No other
    value of [sortmethod] selects anything. *)
Definition selected_before (sortmethod : SortMethod) (base b : Face) : Prop :=
  match sortmethod with
  | by_area => (Area base <= Area b)%Q
  | by_z => (z (CenterOfMass base) <= z (CenterOfMass b))%Q
  | by_point p =>
      (Length (sub (CenterOfMass base) p)
       <= Length (sub (CenterOfMass b) p))%Q
  | by_other _ => False
  end.

(** What the returned item [[base, vector]] is, for a given [sortmethod]:
    taken from a valid pair, lower member first, and selected before the
    base face of every valid pair. *)
Definition extrusion_data (shape : Shape) (sortmethod : SortMethod)
    (base : Face) (vector : Vector) : Prop :=
  (exists f1 f2 other,
     valid_pair shape f1 f2 /\ lower_of f1 f2 base other /\
     vector = sub (CenterOfMass other) (CenterOfMass base)) /\
  (forall g1 g2, valid_pair shape g1 g2 ->
     exists b o, lower_of g1 g2 b o /\ selected_before sortmethod base b).

End WithKernel.

(** A kernel for running the model: a face is a record of what the kernel
    would answer, angles are told apart by the sign of the dot product. *)
Record ToyFace : Type := {
  toy_hash : Z;
  toy_normal : option Vector;
  toy_com : Vector;
  toy_area : Q
}.

Record ToyShape : Type := {
  toy_null : bool;
  toy_solids : nat;
  toy_faces : list ToyFace
}.

Definition vec (a b c : Z) : Vector :=
  {| x := inject_Z a; y := inject_Z b; z := inject_Z c |}.

Definition toy_dot (a b : Vector) : Q := x a * x b + y a * y b + z a * z b.

#[local] Instance toy_kernel : GeomKernel := {|
  Face := ToyFace;
  Shape := ToyShape;
  isNull := toy_null;
  Solids s := replicate (toy_solids s) s;
  Faces := toy_faces;
  hashCode := toy_hash;
  normalAt00 := toy_normal;
  CenterOfMass := toy_com;
  Area := toy_area;
  getAngle_round4 a b :=
    if Qlt_le_dec (toy_dot a b) 0 then 31416%Z
    else if Qlt_le_dec 0 (toy_dot a b) then 0%Z else 15708%Z;
  sub a b := {| x := x a - x b; y := y a - y b; z := z a - z b |};
  Length a := toy_dot a a
|}.

Definition toy_face (h : Z) (n c : Vector) (a : Z) : ToyFace :=
  {| toy_hash := h; toy_normal := Some n; toy_com := c;
     toy_area := inject_Z a |}.

(** A 4 x 6 x 8 box standing on the plane z = 0. *)
Definition box : ToyShape :=
  {| toy_null := false; toy_solids := 1;
     toy_faces :=
       [toy_face 1 (vec (-1) 0 0) (vec 0 3 4) 48;
        toy_face 2 (vec 1 0 0) (vec 4 3 4) 48;
        toy_face 3 (vec 0 (-1) 0) (vec 2 0 4) 32;
        toy_face 4 (vec 0 1 0) (vec 2 6 4) 32;
        toy_face 5 (vec 0 0 (-1)) (vec 2 3 0) 24;
        toy_face 6 (vec 0 0 1) (vec 2 3 8) 24] |}.

Definition box_bottom : ToyFace :=
  toy_face 5 (vec 0 0 (-1)) (vec 2 3 0) 24.

Definition box_left : ToyFace :=
  toy_face 1 (vec (-1) 0 0) (vec 0 3 4) 48.

(** A shape of three faces no two of which are opposite. *)
Definition corner : ToyShape :=
  {| toy_null := false; toy_solids := 1;
     toy_faces :=
       [toy_face 1 (vec 1 0 0) (vec 4 3 4) 48;
        toy_face 2 (vec 0 1 0) (vec 2 6 4) 32;
        toy_face 3 (vec 0 0 1) (vec 2 3 8) 24] |}.

End Extrusion.

(** ** getCutVolume (lines 415-494) *)

Module CutVolume.

(** The kernel as [getCutVolume] sees it. [copy] is the one call inside the
    [try] block: [None] stands for [Part.OCCError]. The calls made outside
    it have no handler in the function; they are taken as total. Messages
    printed to the console are left out. *)
Class CutKernel : Type := {
  Shape : Type;
  Vector : Type;
  BoundBox : Type;
  Faces : Shape -> list Shape;
  copy : Shape -> option Shape;
  BoundBox_of : Shape -> BoundBox;
  bb_add : BoundBox -> BoundBox -> BoundBox;
  bb_enlarge : BoundBox -> Q -> BoundBox;
  isCutPlane : BoundBox -> Vector -> Vector -> bool;
  XMin : BoundBox -> Q; XMax : BoundBox -> Q;
  YMin : BoundBox -> Q; YMax : BoundBox -> Q;
  ZMin : BoundBox -> Q; ZMax : BoundBox -> Q;
  CenterOfMass : Shape -> Vector;
  normalAt00 : Shape -> Vector;
  ParameterRange : Shape -> Q * Q * Q * Q;
  valueAt : Shape -> Q -> Q -> Vector;
  mkVector : Q -> Q -> Q -> Vector;
  sub : Vector -> Vector -> Vector;
  add : Vector -> Vector -> Vector;
  cross : Vector -> Vector -> Vector;
  normalize : Vector -> Vector;
  negative : Vector -> Vector;
  Length : Vector -> Q;
  project : Vector -> Vector -> Vector;
  scaleTo : Vector -> Q -> Vector;
  makePolygon : list Vector -> Shape;
  Part_Face : Shape -> Shape;
  extrude : Shape -> Vector -> Shape;
  cut : Shape -> Shape -> Shape;
  fuse : Shape -> Shape -> Shape;
  removeSplitter : Shape -> Shape
}.

Section WithKernel.
Context `{K : CutKernel}.

(** The [cutplane] argument: a shape, or an object that has [Faces] and
    also a [Shape] attribute (line 435). *)
Inductive CutPlane : Type :=
| PlainShape (s : Shape)
| WithShape (faces : list Shape) (shape : Shape).





(** Lines 435-438: [cutplane.Shape.copy().Faces[0]] or
    [cutplane.copy().Faces[0]]. *)
Definition first_face (cutplane : CutPlane) : result Shape :=
  let target := match cutplane with
                | PlainShape s => s
                | WithShape _ shape => shape
                end in
  match copy target with
  | None => Raise OCCError
  | Some c => match Faces c with
              | p :: _ => Ok p
              | [] => Raise IndexError
              end
  end.


(** Python's [max(a, b)] *)
Definition py_max (a b : Q) : Q := if Qlt_le_dec a b then b else a.

















End WithKernel.

(** A symbolic kernel: shapes and vectors are the terms that built them;
    a bounding box is its six bounds, cut by every plane unless empty;
    a shape is given by the faces it has. *)
Inductive SymVector : Type :=
| V (a b c : Q)
| VCenter (n : nat)
| VNormal (n : nat)
| VValue (n : nat) (a b : Q)
| VSub (a b : SymVector)
| VAdd (a b : SymVector)
| VCross (a b : SymVector)
| VNormalize (a : SymVector)
| VNegative (a : SymVector)
| VProject (a b : SymVector)
| VScale (a : SymVector) (k : Q).

Inductive SymShape : Type :=
| SFace (n : nat)
| SBody (faces : list nat) (size : Q)
| SPolygon (pts : list SymVector)
| SFaceOf (w : SymShape)
| SExtrude (s : SymShape) (v : SymVector)
| SCut (a b : SymShape)
| SFuse (a b : SymShape)
| SClean (a : SymShape).

Definition sym_size (s : SymShape) : Q :=
  match s with
  | SBody _ size => size
  | _ => 0%Q
  end.

#[local] Instance sym_kernel : CutKernel := {|
  Shape := SymShape;
  Vector := SymVector;
  BoundBox := Q;
  Faces s := match s with
             | SBody faces _ => map SFace faces
             | SFace n => [SFace n]
             | _ => []
             end;
  copy s := Some s;
  BoundBox_of := sym_size;
  bb_add a b := py_max a b;
  bb_enlarge a k := (a + k)%Q;
  isCutPlane bb _ _ := if Qlt_le_dec 1 bb then true else false;
  XMin bb := (- bb)%Q; XMax bb := bb;
  YMin bb := (- bb)%Q; YMax bb := bb;
  ZMin bb := (- bb)%Q; ZMax bb := bb;
  CenterOfMass s := match s with SFace n => VCenter n | _ => V 0 0 0 end;
  normalAt00 s := match s with SFace n => VNormal n | _ => V 0 0 1 end;
  ParameterRange _ := (0, 1, 0, 1)%Q;
  valueAt s a b := match s with SFace n => VValue n a b | _ => V a b 0 end;
  mkVector := V;
  sub := VSub;
  add := VAdd;
  cross := VCross;
  normalize := VNormalize;
  negative := VNegative;
  Length v := match v with
              | VProject (VSub (V a b c) _) _ => py_max a (py_max b c)
              | _ => 0%Q
              end;
  project := VProject;
  scaleTo := VScale;
  makePolygon := SPolygon;
  Part_Face := SFaceOf;
  extrude := SExtrude;
  cut := SCut;
  fuse := SFuse;
  removeSplitter := SClean
|}.


End CutVolume.

(** ** getShapeFromMesh (lines 496-570) and meshToShape (lines 590-613) *)

Module MeshToShape.
Import MakeFace.

Definition Point : Type := Q * Q * Q.

(** The mesh library and the rest of the kernel. A call the source guards
    with [try] somewhere returns a [result]; [flattenWire] and the mesh
    queries are never guarded and are total. What the functions print is
    left out. *)
Class MeshKernel : Type := {
  part_kernel :: PartKernel;
  Mesh : Type;
  Facet : Type;
  isSolid : Mesh -> bool;
  countComponents : Mesh -> nat;
  Facets : Mesh -> list Facet;
  Points : Facet -> list Point;
  getPlanarSegments : Mesh -> Q -> list (list nat);
  wireFromSegment : Mesh -> list nat -> list Wire;
  flattenWire : Wire -> Wire;
  makePolygon : list Point -> result Wire;
  makeShell : list Shape -> result Shape;
  Part_Solid : Shape -> result Shape;
  removeSplitter : Shape -> result Shape;
  makeCompound : list Shape -> result Shape;
  isClosed : Shape -> bool;
  isValid : Shape -> bool
}.

Section WithKernel.
Context `{K : MeshKernel}.

(** [makeFace] as a function of its arguments: the kernel answers do not
    depend on the calls made before. *)
Definition makeFace_result (wires : WiresArg Wire) (method : Z)
    : result Shape :=
  fst (makeFace wires method false []).

(** Lines 503-514: one facet of the fast method. The polygon is closed with
    the facet's first point; a face that cannot be built is skipped. *)
Definition facet_face (faces : list Shape) (f : Facet)
    : result (list Shape) :=
  match Points f with
  | [] => Raise IndexError
  | p0 :: _ =>
      let pts := Points f ++ [p0] in
      match (let? w := makePolygon pts in kernel_Face (SingleWire w)) with
      | Ok face => Ok (faces ++ [face])
      | Raise _ => Ok faces
      end
  end.

Fixpoint facet_faces (facets : list Facet) (faces : list Shape)
    : result (list Shape) :=
  match facets with
  | [] => Ok faces
  | f :: facets' =>
      let? faces' := facet_face faces f in facet_faces facets' faces'
  end.

(** Lines 500-526: the fast method. [Ok None]: [Part.Solid] raised
    [Part.OCCError] and control falls through to the slow method. *)
Definition fast_method (mesh : Mesh) : result (option Shape) :=
  let? faces := facet_faces (Facets mesh) [] in
  let? shell := makeShell faces in
  match Part_Solid shell with
  | Raise OCCError => Ok None
  | Raise e => Raise e
  | Ok solid =>
      match removeSplitter solid with
      | Raise OCCError => Ok (Some solid)
      | Raise e => Raise e
      | Ok cleaned => Ok (Some cleaned)
      end
  end.

(** Lines 533-545: [None] when a [makeFace] call raised and the function
    returned None from inside the loop. *)
Fixpoint segment_faces (mesh : Mesh) (flat : bool) (method : Z)
    (segments : list (list nat)) (faces : list Shape)
    : option (list Shape) :=
  match segments with
  | [] => Some faces
  | i :: segments' =>
      match i, wireFromSegment mesh i with
      | _ :: _, (_ :: _) as wires =>
          let wires := if flat then map flattenWire wires else wires in
          match makeFace_result (WireList wires) method with
          | Ok face => segment_faces mesh flat method segments' (faces ++ [face])
          | Raise _ => None
          end
      | _, _ => segment_faces mesh flat method segments' faces
      end
  end.

(** Lines 546-570: from the faces to the shape returned. *)
Definition assemble (faces : list Shape) (flat : bool)
    : result (option Shape) :=
  match (let? se := makeShell faces in removeSplitter se) with
  | Raise OCCError =>
      match makeCompound faces with
      | Raise OCCError => Ok None
      | Raise e => Raise e
      | Ok cp => Ok (Some cp)
      end
  | Raise e => Raise e
  | Ok se =>
      if flat then Ok (Some se)
      else match Part_Solid se with
           | Raise OCCError => Ok (Some se)
           | Raise e => Raise e
           | Ok solid => if isClosed solid then Ok (Some solid)
                         else Ok (Some se)
           end
  end.

Definition slow_method (mesh : Mesh) (tolerance : Q) (flat cut : bool)
    : result (option Shape) :=
  let method := (Z.b2z cut + 1)%Z in
  match segment_faces mesh flat method (getPlanarSegments mesh tolerance) []
  with
  | None => Ok None
  | Some faces => assemble faces flat
  end.

Definition getShapeFromMesh (mesh : Mesh) (fast : bool) (tolerance : Q)
    (flat cut : bool) : result (option Shape) :=
  if isSolid mesh && (countComponents mesh =? 1)%nat && fast then
    let? solid := fast_method mesh in
    match solid with
    | Some s => Ok (Some s)
    | None => slow_method mesh tolerance flat cut
    end
  else slow_method mesh tolerance flat cut.

(** The object [meshToShape] is given: its name, and its mesh when "Mesh"
    is in its [PropertiesList]. *)
Record MeshObject : Type := {
  Name : string;
  Mesh_property : option Mesh
}.

(** A handle on an object made by [addObject]: the number of calls the
    document had received when it was made. *)
Definition handle : Type := nat.

Definition Color : Type := Q * Q * Q * Q.
Definition red : Color := (1, 0, 0, 1)%Q.

(** The calls on the document and on the new object, in order: the state
    of [meshToShape]. *)
Inductive DocCall : Type :=
| removeObject (name : string)
| addObject (type name : string)
| set_Shape (obj : handle) (shape : Shape)
| set_ShapeColor (obj : handle) (color : Color).

Definition call (c : DocCall) : Py (list DocCall) unit :=
  fun log => (Ok tt, log ++ [c]).

Definition call_addObject (type name : string) : Py (list DocCall) handle :=
  fun log => (Ok (length log), log ++ [addObject type name]).

Definition when {S} (b : bool) (m : Py S unit) : Py S unit :=
  if b then m else ret tt.

Definition meshToShape (obj : MeshObject) (mark fast : bool) (tol : Q)
    (flat cut : bool) : Py (list DocCall) (option handle) :=
  let name := Name obj in
  match Mesh_property obj with
  | Some mesh =>
      let* solid := lift (getShapeFromMesh mesh fast tol flat cut) in
      match solid with
      | Some solid =>
          let* _ := when (isClosed solid && isValid solid)
                         (call (removeObject name)) in
          let* newobj := call_addObject "Part::Feature" name in
          let* _ := call (set_Shape newobj solid) in
          let* _ := when (negb (isClosed solid) || negb (isValid solid))
                         (when mark (call (set_ShapeColor newobj red))) in
          ret (Some newobj)
      | None => ret None
      end
  | None => ret None
  end.

(** The calls a conversion that obtained [solid] makes, the new object
    being [newobj]. *)
Definition conversion_calls (name : string) (solid : Shape) (mark : bool)
    (newobj : handle) : list DocCall :=
  (if isClosed solid && isValid solid then [removeObject name] else [])
  ++ [addObject "Part::Feature" name; set_Shape newobj solid]
  ++ (if mark && negb (isClosed solid && isValid solid)
      then [set_ShapeColor newobj red] else []).

(** What [meshToShape] does on [obj], given what [getShapeFromMesh]
    answers. *)
Definition conversion (obj : MeshObject) (mark fast : bool) (tol : Q)
    (flat cut : bool) (log : list DocCall) : Prop :=
  match Mesh_property obj with
  | None => meshToShape obj mark fast tol flat cut log = (Ok None, log)
  | Some mesh =>
      match getShapeFromMesh mesh fast tol flat cut with
      | Ok (Some solid) =>
          exists newobj,
            meshToShape obj mark fast tol flat cut log
            = (Ok (Some newobj),
               log ++ conversion_calls (Name obj) solid mark newobj) /\
            (removeObject (Name obj)
               ∈ conversion_calls (Name obj) solid mark newobj
             <-> isClosed solid = true /\ isValid solid = true)
      | Ok None => meshToShape obj mark fast tol flat cut log = (Ok None, log)
      | Raise e => meshToShape obj mark fast tol flat cut log = (Raise e, log)
      end
  end.

End WithKernel.

(** A kernel for running the model, on top of the symbolic wires of
    [MakeFace]: a mesh is a list of segments, each with the diagonals of
    its wires; a shell is closed when it has at least four faces. *)
Inductive SymSolid : Type :=
| Sface (f : MakeFace.SymShape)
| Sshell (faces : nat)
| Ssolid (shell : SymSolid).

#[local] Instance sym_part : PartKernel := {|
  Wire := Z * nat;
  Vertex := unit;
  Shape := SymSolid;
  Vertexes w := replicate (snd w) tt;
  DiagonalLength w := inject_Z (fst w);
  kernel_Face a := Ok (Sface (SymFace a));
  kernel_cut mf f := Ok mf;
  kernel_reverse w := w;
  Faces s := [s]
|}.

Definition sym_closed (s : SymSolid) : bool :=
  match s with
  | Ssolid (Sshell faces) => (4 <=? faces)%nat
  | _ => false
  end.

#[local] Instance sym_mesh : MeshKernel := {|
  part_kernel := sym_part;
  Mesh := list (list Z);
  Facet := unit;
  isSolid m := false;
  countComponents m := 1%nat;
  Facets m := [];
  Points f := [];
  getPlanarSegments m tol := imap (fun i _ => [i]) m;
  wireFromSegment m seg :=
    match seg with
    | [i] => map (fun d => (d, 4%nat)) (default [] (m !! i))
    | _ => []
    end;
  flattenWire w := w;
  makePolygon pts := Raise OCCError;
  makeShell faces := Ok (Sshell (length faces));
  Part_Solid se := Ok (Ssolid se);
  removeSplitter s := Ok s;
  makeCompound faces := Raise OCCError;
  isClosed := sym_closed;
  isValid s := true
|}.

(** An open mesh of two segments and a closed one of four. *)
Definition open_mesh : MeshObject :=
  {| Name := "Mesh"; Mesh_property := Some [[3; 1]; [2]]%Z |}.
Definition closed_mesh : MeshObject :=
  {| Name := "Mesh"; Mesh_property := Some [[3; 1]; [2]; [2]; [5]]%Z |}.

End MeshToShape.

(** ** addComponents (lines 95-139) and removeComponents (lines 141-204) *)

Module Components.

(** Document objects are known by identity; the document maps identities to
    the current values of their attributes. *)
Definition oid : Type := nat.

(** The shape of an object, as far as [addComponents] looks at it: what
    [DraftGeomUtils.isValidPath] answers for it. *)
Record PartShape : Type := { isValidPath : bool }.

(** The values an [AttachmentSupport] can hold. *)
Inductive Support : Type :=
| SupportNone
| SupportObject (o : oid)
| SupportTuple (o : oid) (subs : list string)
| SupportList (l : list (oid * list string)).

#[global] Instance Support_eq_dec : EqDecision Support.
Proof. solve_decision. Defined.

(** The attributes the two functions read or write. An attribute tested
    with [hasattr] is an [option] ([None]: the object does not have it); a
    link that can be unset is an [option] of its own. *)
Record DocumentObject : Type := {
  Label : string;
  (** [Draft.getType(obj)] *)
  DraftType : string;
  (** [obj.isDerivedFrom("App::DocumentObjectGroup")] *)
  isGroup : bool;
  Shape : option PartShape;
  Hosts : option (list oid);
  Additions : list oid;
  Subtractions : list oid;
  Axes : option (list oid);
  Tool : option (option oid);
  Base : option (option oid);
  AttachmentSupport : option Support;
  Objects : list oid
}.

Definition with_Hosts (v : option (list oid)) (ob : DocumentObject) :=
  {| Label := Label ob; DraftType := DraftType ob; isGroup := isGroup ob;
     Shape := Shape ob; Hosts := v; Additions := Additions ob;
     Subtractions := Subtractions ob; Axes := Axes ob; Tool := Tool ob;
     Base := Base ob; AttachmentSupport := AttachmentSupport ob;
     Objects := Objects ob |}.

Definition with_Additions (v : list oid) (ob : DocumentObject) :=
  {| Label := Label ob; DraftType := DraftType ob; isGroup := isGroup ob;
     Shape := Shape ob; Hosts := Hosts ob; Additions := v;
     Subtractions := Subtractions ob; Axes := Axes ob; Tool := Tool ob;
     Base := Base ob; AttachmentSupport := AttachmentSupport ob;
     Objects := Objects ob |}.

Definition with_Subtractions (v : list oid) (ob : DocumentObject) :=
  {| Label := Label ob; DraftType := DraftType ob; isGroup := isGroup ob;
     Shape := Shape ob; Hosts := Hosts ob; Additions := Additions ob;
     Subtractions := v; Axes := Axes ob; Tool := Tool ob;
     Base := Base ob; AttachmentSupport := AttachmentSupport ob;
     Objects := Objects ob |}.

Definition with_Axes (v : option (list oid)) (ob : DocumentObject) :=
  {| Label := Label ob; DraftType := DraftType ob; isGroup := isGroup ob;
     Shape := Shape ob; Hosts := Hosts ob; Additions := Additions ob;
     Subtractions := Subtractions ob; Axes := v; Tool := Tool ob;
     Base := Base ob; AttachmentSupport := AttachmentSupport ob;
     Objects := Objects ob |}.

Definition with_Tool (v : option (option oid)) (ob : DocumentObject) :=
  {| Label := Label ob; DraftType := DraftType ob; isGroup := isGroup ob;
     Shape := Shape ob; Hosts := Hosts ob; Additions := Additions ob;
     Subtractions := Subtractions ob; Axes := Axes ob; Tool := v;
     Base := Base ob; AttachmentSupport := AttachmentSupport ob;
     Objects := Objects ob |}.

Definition with_AttachmentSupport (v : option Support) (ob : DocumentObject) :=
  {| Label := Label ob; DraftType := DraftType ob; isGroup := isGroup ob;
     Shape := Shape ob; Hosts := Hosts ob; Additions := Additions ob;
     Subtractions := Subtractions ob; Axes := Axes ob; Tool := Tool ob;
     Base := Base ob; AttachmentSupport := v; Objects := Objects ob |}.

Definition with_Objects (v : list oid) (ob : DocumentObject) :=
  {| Label := Label ob; DraftType := DraftType ob; isGroup := isGroup ob;
     Shape := Shape ob; Hosts := Hosts ob; Additions := Additions ob;
     Subtractions := Subtractions ob; Axes := Axes ob; Tool := Tool ob;
     Base := Base ob; AttachmentSupport := AttachmentSupport ob;
     Objects := v |}.

(** Calls into the host that the model does not interpret. *)
Inductive HostCall : Type :=
| host_addObject (host o : oid)
| setAsSubcomponent (o : oid)
| PrintMessage (msg : string).

(** The state: the attribute values of every object, the calls made, and
    [FreeCAD.GuiUp]. *)
Record Document : Type := {
  objects : oid -> DocumentObject;
  calls : list HostCall;
  GuiUp : bool
}.

Definition read (o : oid) : Py Document DocumentObject :=
  fun d => (Ok (objects d o), d).

(** An attribute assignment [o.attr = v] *)
Definition assign (o : oid) (set : DocumentObject -> DocumentObject)
    : Py Document unit :=
  fun d => (Ok tt, {| objects := <[o := set (objects d o)]> (objects d);
                      calls := calls d; GuiUp := GuiUp d |}).

Definition call (c : HostCall) : Py Document unit :=
  fun d => (Ok tt, {| objects := objects d; calls := calls d ++ [c];
                      GuiUp := GuiUp d |}).

Definition gui_up : Py Document bool := fun d => (Ok (GuiUp d), d).

(** The first argument: one object, or a list of objects. *)
Inductive ObjectsArg : Type :=
| OneObject (o : oid)
| ObjectList (l : list oid).

(** Lines 99-100 and 146-147 *)
Definition as_list (objectsList : ObjectsArg) : list oid :=
  match objectsList with
  | OneObject o => [o]
  | ObjectList l => l
  end.

(** Line 102 *)
Definition group_host_types : list string :=
  ["Floor"; "Building"; "Site"; "Project"; "BuildingPart"].

(** Lines 105 and 149 *)
Definition component_host_types : list string :=
  ["Wall"; "CurtainWall"; "Structure"; "Precast"; "Window"; "Roof";
   "Stairs"; "StructuralSystem"; "Panel"; "Component"; "Pipe"].

Definition tool_host_types : list string := ["Structure"; "Precast"].

(** Lines 112-117 and 161-166: the host joins the window's [Hosts]. *)
Definition add_host_to_window (o host : oid) : Py Document unit :=
  let* ob := read o in
  match Hosts ob with
  | Some g =>
      if bool_decide (host ∈ g) then ret tt
      else assign o (with_Hosts (Some (g ++ [host])))
  | None => ret tt
  end.

(** Lines 111-127: the body of the loop, on the local lists [a] and [x];
    [x] is [None] while the name [x] is unbound (line 108). *)
Definition add_one (host : oid) (hostType : string)
    (ax : list oid * option (list oid)) (o : oid)
    : Py Document (list oid * option (list oid)) :=
  let '(a, x) := ax in
  let* ob := read o in
  match Shape ob with
  | None => ret (a, x)
  | Some shape =>
      if bool_decide (DraftType ob = "Window") then
        let* _ := add_host_to_window o host in ret (a, x)
      else if isValidPath shape
              && bool_decide (hostType ∈ tool_host_types) then
        match AttachmentSupport ob with
        | None => raise AttributeError
        | Some support =>
            let* _ := if bool_decide (support = SupportObject host)
                      then assign o (with_AttachmentSupport (Some SupportNone))
                      else ret tt in
            let* _ := assign host (with_Tool (Some (Some o))) in
            ret (a, x)
        end
      else if bool_decide (DraftType ob = "Axis") then
        match x with
        | None => raise UnboundLocalError
        | Some axes =>
            if bool_decide (o ∈ axes) then ret (a, x)
            else ret (a, Some (axes ++ [o]))
        end
      else if bool_decide (o ∈ a) then ret (a, x)
      else ret (a ++ [o], x)
  end.

Definition addComponents (objectsList : ObjectsArg) (host : oid)
    : Py Document unit :=
  let objectsList := as_list objectsList in
  let* h := read host in
  let hostType := DraftType h in
  if bool_decide (hostType ∈ group_host_types) then
    for_each objectsList (fun _ o => call (host_addObject host o)) tt
  else if bool_decide (hostType ∈ component_host_types) then
    let* (a, x) := for_each objectsList (add_one host hostType)
                             (Additions h, Axes h) in
    let* _ := assign host (with_Additions a) in
    match x with
    | Some axes => assign host (with_Axes (Some axes))
    | None => ret tt
    end
  else if bool_decide (hostType = "SectionPlane") then
    let a := fold_left
               (fun a o => if bool_decide (o ∈ a) then a else a ++ [o])
               objectsList (Objects h) in
    assign host (with_Objects a)
  else if isGroup h then
    for_each objectsList (fun _ o => call (host_addObject host o)) tt
  else ret tt.

(** Lines 184-190: the object an [AttachmentSupport] value points to,
    [None] for a value that is false or holds no object. *)
Definition support_host (support : Support) : option oid :=
  match support with
  | SupportNone => None
  | SupportObject o => Some o
  | SupportTuple o _ => Some o
  | SupportList [] => None
  | SupportList ((o, _) :: _) => Some o
  end.

Definition cyclic_message (label host_label : string) : string :=
  label +:+ " is mapped to " +:+ host_label +:+
  ", removing the former's Attachment Support to avoid cyclic dependency and TNP."
  +:+ String (Ascii.ascii_of_nat 10) "".

(** Lines 182-197: the body of the loop over [objList]. *)
Definition detach_from_host (host i : oid) : Py Document unit :=
  let* ib := read i in
  match AttachmentSupport ib with
  | None => ret tt
  | Some support =>
      if bool_decide (support_host support = Some host) then
        let* h := read host in
        let* _ := call (PrintMessage (cyclic_message (Label ib) (Label h))) in
        assign i (with_AttachmentSupport (Some SupportNone))
      else ret tt
  end.

(** Lines 161-197: the body of the loop, on the local list [s]. *)
Definition subtract_one (host : oid) (s : list oid) (o : oid)
    : Py Document (list oid) :=
  let* ob := read o in
  if bool_decide (DraftType ob = "Window") then
    let* _ := add_host_to_window o host in ret s
  else if bool_decide (o ∈ s) then ret s
  else
    let s := s ++ [o] in
    let* gui := gui_up in
    let* _ := if gui && negb (bool_decide (DraftType ob ∈ ["Window"; "Roof"]))
              then call (setAsSubcomponent o) else ret tt in
    let objList := match Base ob with
                   | Some (Some b) => [o; b]
                   | _ => [o]
                   end in
    let* _ := for_each objList (fun _ i => detach_from_host host i) tt in
    ret s.

(** Lines 155-158: the loop over the copy [objectsList[:]], on the local
    list [a] and on [objectsList] itself. *)
Fixpoint drop_axes (copy a objectsList : list oid)
    : result (list oid * list oid) :=
  match copy with
  | [] => Ok (a, objectsList)
  | o :: copy' =>
      if bool_decide (o ∈ a) then
        match list_remove o a, list_remove o objectsList with
        | Some a', Some objectsList' => drop_axes copy' a' objectsList'
        | _, _ => Raise ValueError
        end
      else drop_axes copy' a objectsList
  end.

(** [removeComponents] called with a host (lines 148-204; a document
    object is true). The list [a] left by the loop over the axes is not
    assigned to anything: after line 158 the function never mentions it. *)
Definition removeComponents (objectsList : ObjectsArg) (host : oid)
    : Py Document unit :=
  let objectsList := as_list objectsList in
  let* h := read host in
  if bool_decide (DraftType h ∈ component_host_types) then
    let* _ := match Tool h with
              | Some tool =>
                  match objectsList with
                  | [] => raise IndexError
                  | first :: _ =>
                      if bool_decide (tool = Some first)
                      then assign host (with_Tool (Some None))
                      else ret tt
                  end
              | None => ret tt
              end in
    let* objectsList :=
      match Axes h with
      | Some a =>
          let* (_, objectsList) := lift (drop_axes objectsList a objectsList) in
          ret objectsList
      | None => ret objectsList
      end in
    let* s := for_each objectsList (subtract_one host) (Subtractions h) in
    assign host (with_Subtractions s)
  else if bool_decide (DraftType h = "SectionPlane") then
    let a := fold_left
               (fun a o => if bool_decide (o ∈ a)
                           then default a (list_remove o a) else a)
               objectsList (Objects h) in
    assign host (with_Objects a)
  else ret tt.

(** The rule of lines 111-127 that an object falls under. *)
Inductive Rule : Type :=
| Skipped
| WindowRule
| ToolRule
| AxisRule
| AdditionRule.

#[global] Instance Rule_eq_dec : EqDecision Rule.
Proof. solve_decision. Defined.







(** No object's [Axes] differ between the two states. *)
Definition keeps_axes (d d' : Document) : Prop :=
  forall o, Axes (objects d' o) = Axes (objects d o).

(** What the loop of [removeComponents] may change: types, subtractions
    and tools stay, and a [Hosts] list only grows. *)
Definition evolves (d d' : Document) : Prop :=
  forall o,
    DraftType (objects d' o) = DraftType (objects d o) /\
    Subtractions (objects d' o) = Subtractions (objects d o) /\
    Tool (objects d' o) = Tool (objects d o) /\
    (forall g, Hosts (objects d o) = Some g ->
       exists g', Hosts (objects d' o) = Some g' /\ g ⊆ g').


(** A small document. 0: a structure with an empty list of axes; 1: a
    wall, without [Axes] and [Tool]; 2: a window; 3: an axis system, whose
    shape (loose edges) is a valid path; 4: a box; 5: a building part;
    6: a structure that has the axis system 3 among its axes. *)
Definition blank (type : string) : DocumentObject :=
  {| Label := type; DraftType := type; isGroup := false; Shape := None;
     Hosts := None; Additions := []; Subtractions := []; Axes := None;
     Tool := None; Base := None; AttachmentSupport := None; Objects := [] |}.

Definition solid_shape : option PartShape := Some {| isValidPath := false |}.
Definition path_shape : option PartShape := Some {| isValidPath := true |}.

Definition sample_objects (o : oid) : DocumentObject :=
  match o with
  | 0%nat => {| Label := "Structure"; DraftType := "Structure";
                isGroup := false; Shape := solid_shape; Hosts := None;
                Additions := []; Subtractions := []; Axes := Some [];
                Tool := Some None; Base := None;
                AttachmentSupport := Some SupportNone; Objects := [] |}
  | 1%nat => {| Label := "Wall"; DraftType := "Wall";
                isGroup := false; Shape := solid_shape; Hosts := None;
                Additions := []; Subtractions := []; Axes := None;
                Tool := None; Base := None;
                AttachmentSupport := Some SupportNone; Objects := [] |}
  | 2%nat => {| Label := "Window"; DraftType := "Window";
                isGroup := false; Shape := solid_shape; Hosts := Some [];
                Additions := []; Subtractions := []; Axes := None;
                Tool := None; Base := None;
                AttachmentSupport := Some SupportNone; Objects := [] |}
  | 3%nat => {| Label := "Axes"; DraftType := "Axis";
                isGroup := false; Shape := path_shape; Hosts := None;
                Additions := []; Subtractions := []; Axes := None;
                Tool := None; Base := None;
                AttachmentSupport := Some SupportNone; Objects := [] |}
  | 4%nat => {| Label := "Box"; DraftType := "Part";
                isGroup := false; Shape := solid_shape; Hosts := None;
                Additions := []; Subtractions := []; Axes := None;
                Tool := None; Base := None;
                AttachmentSupport := Some SupportNone; Objects := [] |}
  | 5%nat => blank "BuildingPart"
  | 6%nat => {| Label := "Structure001"; DraftType := "Structure";
                isGroup := false; Shape := solid_shape; Hosts := None;
                Additions := []; Subtractions := []; Axes := Some [3%nat];
                Tool := Some None; Base := None;
                AttachmentSupport := Some SupportNone; Objects := [] |}
  | _ => blank "Part"
  end.

Definition sample : Document :=
  {| objects := sample_objects; calls := []; GuiUp := false |}.

End Components.

(** * Further functions and properties *)

(** ** pruneIncluded: what makes an object a subcomponent *)

Module Subcomponents.
Import Prune.

(** An object the loop of lines 768-801 sets [toplevel = False] for: a
    Part::Feature, of a type the function looks at the parents of, with a
    parent for which the [if]/[elif] chain ends in [toplevel = False]. *)
Definition subcomponent (doc : oid -> DocumentObject) (obj : oid) : bool :=
  isDerivedFrom doc obj "Part::Feature"
  && bool_decide (DraftType (doc obj) ∉ never_pruned_types)
  && existsb (parent_includes doc obj) (InList (doc obj)).

End Subcomponents.

(** ** addComponents and removeComponents on a section plane *)

Module SectionPlanes.
Import Components.

(** Line 134-135: one pass of the loop that adds to [host.Objects]. *)
Definition add_object (a : list oid) (o : oid) : list oid :=
  if bool_decide (o ∈ a) then a else a ++ [o].

(** Line 202-203: one pass of the loop that removes from [host.Objects]. *)
Definition remove_object (a : list oid) (o : oid) : list oid :=
  if bool_decide (o ∈ a) then default a (list_remove o a) else a.

(** The objects a run of the adding loop appends to [a], in order. *)
Fixpoint appended (objectsList a : list oid) : list oid :=
  match objectsList with
  | [] => []
  | o :: objectsList' =>
      if bool_decide (o ∈ a) then appended objectsList' a
      else o :: appended objectsList' (a ++ [o])
  end.

(** No object but [host] differs between the two states, and of [host]
    only the [Objects]. *)
Definition only_Objects_differ (host : oid) (d d' : Document) : Prop :=
  calls d' = calls d /\ GuiUp d' = GuiUp d /\
  forall o, objects d' o
            = if decide (o = host)
              then with_Objects (Objects (objects d' host)) (objects d o)
              else objects d o.

(** A document with a section plane (0) that shows the object 7. *)
Definition plane_objects (o : oid) : DocumentObject :=
  match o with
  | 0%nat => with_Objects [7%nat] (blank "SectionPlane")
  | _ => sample_objects o
  end.

Definition plane_doc : Document :=
  {| objects := plane_objects; calls := []; GuiUp := false |}.

End SectionPlanes.

(** ** getAllChildren (lines 812-824) *)

Module Children.

Definition oid : Type := nat.

Section WithOutList.
(** [o.OutList]: the objects [o] links to. *)
Variable OutList : oid -> list oid.

(** [if not c in obs: obs.append(c)] *)
Definition append_new (obs : list oid) (c : oid) : list oid :=
  if bool_decide (c ∈ obs) then obs else obs ++ [c].

(** Lines 815-823: the loop over [objectlist], with [obs] as it stands;
    [rec] is the recursive call of line 819, [None] when it does not
    return. *)
Fixpoint visit (rec : list oid -> option (list oid))
    (objectlist obs : list oid) : option (list oid) :=
  match objectlist with
  | [] => Some obs
  | o :: objectlist' =>
      let obs := append_new obs o in
      match OutList o with
      | [] => visit rec objectlist' obs
      | _ :: _ =>
          match rec (OutList o) with
          | Some l => visit rec objectlist' (foldl append_new obs l)
          | None => None
          end
      end
  end.

(** The function calls itself on the children of every object, with no
    record of the objects seen in the calls before: [fuel] bounds the depth
    of the calls, and [None] is a run that needs a deeper one. *)
Fixpoint getAllChildren (fuel : nat) (objectlist : list oid)
    : option (list oid) :=
  match fuel with
  | O => None
  | S fuel => visit (getAllChildren fuel) objectlist []
  end.

(** [c] is in [o.OutList]. *)
Definition child (o c : oid) : Prop := c ∈ OutList o.

(** [c] is an object of [objectlist] or is reached from one of them along
    [OutList] links. *)
Definition reached (objectlist : list oid) (c : oid) : Prop :=
  exists o, o ∈ objectlist /\ rtc child o c.

(** A call returns a list without duplicates of the objects reached. *)
Definition sound (rec : list oid -> option (list oid)) : Prop :=
  forall l obs, rec l = Some obs ->
    NoDup obs /\ forall x, x ∈ obs <-> reached l x.

End WithOutList.

(** A small graph: 0 links to 1 and 2, 1 and 2 link to 3. *)
Definition diamond (o : oid) : list oid :=
  match o with
  | 0%nat => [1; 2]%nat
  | 1%nat => [3]%nat
  | 2%nat => [3]%nat
  | _ => []
  end.

Definition diamond_rank (o : oid) : nat :=
  match o with
  | 0%nat => 2%nat
  | 1%nat => 1%nat
  | 2%nat => 1%nat
  | _ => 0%nat
  end.

End Children.

(** ** getHost (lines 741-756) *)

Module Hosting.
Import Prune.

Section WithDocument.
Variable doc : oid -> DocumentObject.

(** Line 747: the test a parent has to pass. *)
Definition can_host (par : oid) : bool :=
  isDerivedFrom doc par "Part::Feature"
  || isDerivedFrom doc par "App::DocumentObjectGroup".

(** Lines 746-755: every path through the body of the [if] of line 747
    returns, so the loop ends at the first parent that passes the test. *)
Definition first_host (obj : oid) : option oid :=
  find can_host (InList (doc obj)).

(** [Some None] is the [None] the function returns; a plain [None] is a run
    that needs more than [fuel] nested calls. *)
Fixpoint getHost (fuel : nat) (obj : oid) (strict : bool)
    : option (option oid) :=
  match fuel with
  | O => None
  | S fuel =>
      let t := DraftType (doc obj) in
      match first_host obj with
      | Some par =>
          if strict then
            if negb (String.eqb (DraftType (doc par)) t) then Some (Some par)
            else getHost fuel par strict
          else Some (Some par)
      | None => Some None
      end
  end.


End WithDocument.

(** A floor (0) that holds a wall (1) that holds a second wall (2). *)
Definition storey (o : oid) : DocumentObject :=
  match o with
  | 1%nat => plain "Wall" "Wall" ["Part::Feature"] [0%nat]
  | 2%nat => plain "Wall001" "Wall" ["Part::Feature"] [1%nat]
  | _ => plain "Floor" "Floor" ["App::DocumentObjectGroup"] []
  end.

Definition storey_rank (o : oid) : nat :=
  match o with
  | 1%nat => 1%nat
  | 2%nat => 2%nat
  | _ => 0%nat
  end.

End Hosting.

(** ** toggleIfcBrepFlag (lines 1173-1190) *)

Module IfcFlag.

(** [IfcData] is a dictionary of strings; [None]: the object has no such
    attribute. Reading it yields a dictionary of the function's own. *)
Record DocumentObject : Type := {
  Label : string;
  IfcData : option (gmap string string)
}.

Definition newline : string := String (Ascii.ascii_of_nat 10) "".

Section WithTranslate.
(** [translate(context, text)] *)
Variable translate : string -> string -> string.

(** Lines 1180-1189: the dictionary and the message of the three branches. *)
Definition toggled (label : string) (d : gmap string string)
    : gmap string string * string :=
  match d !! "FlagForceBrep" with
  | Some flag =>
      if String.eqb flag "True" then
        (<["FlagForceBrep" := "False"]> d,
         translate "Arch" "Disabling B-rep force flag of object"
           +:+ " " +:+ label +:+ newline)
      else
        (<["FlagForceBrep" := "True"]> d,
         translate "Arch" "Enabling B-rep force flag of object"
           +:+ " " +:+ label +:+ newline)
  | None =>
      (<["FlagForceBrep" := "True"]> d,
       translate "Arch" "Enabling B-rep force flag of object"
         +:+ " " +:+ label +:+ newline)
  end.

(** The state is the object and what was printed to the console. *)
Definition toggleIfcBrepFlag (obj : DocumentObject) (console : list string)
    : DocumentObject * list string :=
  match IfcData obj with
  | None =>
      (obj, console ++
            [translate "Arch" "Object doesn't have settable IFC attributes"])
  | Some d =>
      let (d, message) := toggled (Label obj) d in
      ({| Label := Label obj; IfcData := Some d |}, console ++ [message])
  end.

End WithTranslate.

End IfcFlag.

(** ** closeHole (lines 387-413) *)

Module CloseHole.

(** The kernel calls of the function; each can raise. *)
Class HoleKernel : Type := {
  Shape : Type;
  Face : Type;
  Edge : Type;
  Wire : Type;
  Shell : Type;
  Solid : Type;
  Faces : Shape -> list Face;
  Edges : Shape -> list Edge;
  face_Edges : Face -> list Edge;
  hashCode : Edge -> Z;
  sortEdges : list Edge -> result (list Edge);
  Part_Wire : list Edge -> result Wire;
  Part_Face : Wire -> result Face;
  makeShell : list Face -> result Shell;
  Part_Solid : Shell -> result Solid
}.

(** How a call ends: [lut[hc]] raises [KeyError] for a key the dictionary
    does not have; the kernel raises exceptions of its own. *)
Inductive outcome `{HoleKernel} : Type :=
| KeyError (hc : Z)
| Raised (e : exn)
| Returned (solid : Solid).

Section WithKernel.
Context `{K : HoleKernel}.

(** Lines 394-398: one pass of the inner loop. *)
Definition count_edge (lut : gmap Z nat) (edge : Edge) : gmap Z nat :=
  let hc := hashCode edge in
  match lut !! hc with
  | Some n => <[hc := (n + 1)%nat]> lut
  | None => <[hc := 1%nat]> lut
  end.

(** Lines 391-398 *)
Definition lookup_table (shape : Shape) : gmap Z nat :=
  foldl (fun lut face => foldl count_edge lut (face_Edges face))
        ∅ (Faces shape).

(** Lines 400-403; [inl hc] is the [KeyError] of [lut[hc]]. *)
Fixpoint boundary (lut : gmap Z nat) (edges bound : list Edge)
    : Z + list Edge :=
  match edges with
  | [] => inr bound
  | e :: edges' =>
      match lut !! hashCode e with
      | Some n =>
          boundary lut edges' (if (n =? 1)%nat then bound ++ [e] else bound)
      | None => inl (hashCode e)
      end
  end.

(** Lines 404-411: the [except] clause raises what it caught again. *)
Definition solid_of (shape : Shape) (bound : list Edge) : result Solid :=
  let? bound := sortEdges bound in
  let? wire := Part_Wire bound in
  let? nface := Part_Face wire in
  let? shell := makeShell (Faces shape ++ [nface]) in
  Part_Solid shell.

Definition closeHole (shape : Shape) : outcome :=
  match boundary (lookup_table shape) (Edges shape) [] with
  | inl hc => KeyError hc
  | inr bound =>
      match solid_of shape bound with
      | Ok solid => Returned solid
      | Raise e => Raised e
      end
  end.

(** The edges of all faces, face by face. *)
Definition face_edges (shape : Shape) : list Edge :=
  concat (map face_Edges (Faces shape)).

(** How many edges of [l] have the hash code [hc]. *)
Definition hash_count (l : list Edge) (hc : Z) : nat :=
  length (filter (fun e => hashCode e = hc) l).

(** How many edges of the faces have the hash code [hc]. *)
Definition occurrences (shape : Shape) (hc : Z) : nat :=
  hash_count (face_edges shape) hc.

(** What is built from the edges [bound]: sorted, they make a wire, the
    wire makes a face, the faces of the shape and that face make a shell,
    and the shell makes the solid. *)
Definition closes_with (shape : Shape) (bound : list Edge) (solid : Solid)
    : Prop :=
  exists sorted wire nface shell,
    sortEdges bound = Ok sorted /\
    Part_Wire sorted = Ok wire /\
    Part_Face wire = Ok nface /\
    makeShell (Faces shape ++ [nface]) = Ok shell /\
    Part_Solid shell = Ok solid.

(** One of these kernel calls raises [e], the calls before it having
    returned. *)
Definition kernel_raises (shape : Shape) (bound : list Edge) (e : exn)
    : Prop :=
  sortEdges bound = Raise e \/
  exists sorted, sortEdges bound = Ok sorted /\
    (Part_Wire sorted = Raise e \/
     exists wire, Part_Wire sorted = Ok wire /\
       (Part_Face wire = Raise e \/
        exists nface, Part_Face wire = Ok nface /\
          (makeShell (Faces shape ++ [nface]) = Raise e \/
           exists shell, makeShell (Faces shape ++ [nface]) = Ok shell /\
                         Part_Solid shell = Raise e))).

(** The dictionary [lut] holds the counts of the edges of [l], and no key
    else. *)
Definition tallies (lut : gmap Z nat) (l : list Edge) : Prop :=
  forall hc, lut !! hc = if decide (hash_count l hc = 0%nat) then None
                         else Some (hash_count l hc).

End WithKernel.

(** A toy kernel: a shape is the list of its faces, a face the list of its
    edges, an edge its hash code; the shape's own edges are those of its
    faces, each once. *)
#[local] Instance toy_kernel : HoleKernel := {|
  Shape := list (list Z);
  Face := list Z;
  Edge := Z;
  Wire := list Z;
  Shell := list (list Z);
  Solid := list (list Z);
  Faces s := s;
  Edges s := remove_dups (concat s);
  face_Edges f := f;
  hashCode e := e;
  sortEdges l := Ok l;
  Part_Wire l := Ok l;
  Part_Face w := Ok w;
  makeShell l := Ok l;
  Part_Solid s := Ok s
|}.

(** Two triangles that share the edge 2. *)
Definition two_triangles : list (list Z) := [[1; 2; 3]; [2; 4; 5]]%Z.

End CloseHole.

(** ** check (lines 714-739) *)

Module Check.

(** The host as [check] sees it. [obj_Shape o] is [None] when [o] has no
    [Shape] attribute. *)
Class CheckHost : Type := {
  Obj : Type;
  Shape : Type;
  Solid : Type;
  Face : Type;
  get_group_contents : list Obj -> list Obj;
  removeHidden : list Obj -> list Obj;
  getType : Obj -> string;
  obj_Shape : Obj -> option Shape;
  isClosed : Shape -> bool;
  isValid : Shape -> bool;
  Solids : Shape -> list Solid;
  Faces : Shape -> list Face;
  solid_Faces : Solid -> list Face;
  solid_isClosed : Solid -> bool;
  translate : string -> string -> string
}.

Section WithHost.
Context `{H : CheckHost}.

(** An entry of [bad]: the object and what is wrong with it. *)
Definition entry : Type := Obj * string.

(** Lines 732-735: one pass of the loop over the solids. *)
Definition count_solid (o : Obj) (acc : nat * list entry) (sol : Solid)
    : nat * list entry :=
  let (f, bad) := acc in
  let f := (f + length (solid_Faces sol))%nat in
  if negb (solid_isClosed sol)
  then (f, bad ++ [(o, translate "Arch" "contains a non-closed solid")])
  else (f, bad).

(** Lines 721-737: one pass of the loop over the objects. *)
Definition check_object (bad : list entry) (o : Obj) : list entry :=
  match obj_Shape o with
  | None => bad ++ [(o, "is not a Part-based object")]
  | Some s =>
      if negb (isClosed s) && negb (String.eqb (getType o) "Axis")
      then bad ++ [(o, translate "Arch" "is not closed")]
      else if negb (isValid s)
      then bad ++ [(o, translate "Arch" "is not valid")]
      else if match Solids s with [] => true | _ => false end
              && negb (String.eqb (getType o) "Axis")
      then bad ++ [(o, translate "Arch" "doesn't contain any solid")]
      else
        let (f, bad) := foldl (count_solid o) (0%nat, bad) (Solids s) in
        if negb (length (Faces s) =? f)%nat
        then bad ++ [(o, translate "Arch"
                           "contains faces that are not part of any solid")]
        else bad
  end.

(** Lines 716-718: the objects the loop runs over. *)
Definition checked (objectslist : list Obj) (includehidden : bool)
    : list Obj :=
  let objs := get_group_contents objectslist in
  if negb includehidden then removeHidden objs else objs.

Definition check (objectslist : list Obj) (includehidden : bool)
    : list entry :=
  foldl check_object [] (checked objectslist includehidden).

(** The number of faces of the solids of a shape. *)
Definition solid_faces (s : Shape) : nat :=
  foldr (fun sol n => (length (solid_Faces sol) + n)%nat) 0%nat (Solids s).

(** An object [check] has nothing to say about. *)
Definition is_sound (o : Obj) : Prop :=
  exists s, obj_Shape o = Some s /\
    (isClosed s = true \/ getType o = "Axis") /\
    isValid s = true /\
    (Solids s <> [] \/ getType o = "Axis") /\
    (forall sol, sol ∈ Solids s -> solid_isClosed sol = true) /\
    length (Faces s) = solid_faces s.

End WithHost.

End Check.

(** ** removeComponents without a host (lines 205-236) *)

Module Detach.

Definition oid : Type := nat.

(** The properties the branch reads and writes; [Hosts] is [None] on an
    object without the attribute. *)
Record DocumentObject : Type := {
  DraftType : string;
  Group : list oid;
  Additions : list oid;
  Subtractions : list oid;
  Objects : list oid;
  Hosts : option (list oid)
}.

Definition with_Group (v : list oid) (o : DocumentObject) : DocumentObject :=
  {| DraftType := DraftType o; Group := v; Additions := Additions o;
     Subtractions := Subtractions o; Objects := Objects o;
     Hosts := Hosts o |}.

Definition with_Additions (v : list oid) (o : DocumentObject)
    : DocumentObject :=
  {| DraftType := DraftType o; Group := Group o; Additions := v;
     Subtractions := Subtractions o; Objects := Objects o;
     Hosts := Hosts o |}.

Definition with_Subtractions (v : list oid) (o : DocumentObject)
    : DocumentObject :=
  {| DraftType := DraftType o; Group := Group o; Additions := Additions o;
     Subtractions := v; Objects := Objects o; Hosts := Hosts o |}.

Definition with_Objects (v : list oid) (o : DocumentObject) : DocumentObject :=
  {| DraftType := DraftType o; Group := Group o; Additions := Additions o;
     Subtractions := Subtractions o; Objects := v; Hosts := Hosts o |}.

Definition with_Hosts (v : list oid) (o : DocumentObject) : DocumentObject :=
  {| DraftType := DraftType o; Group := Group o; Additions := Additions o;
     Subtractions := Subtractions o; Objects := Objects o;
     Hosts := Some v |}.

Definition Document : Type := oid -> DocumentObject.

(** What the application does for the branch: [InList d o] is [o.InList]
    in the state [d], which the application derives from the links of the
    other objects; [show o] is [o.ViewObject.show()]. *)
Class DetachHost : Type := {
  InList : Document -> oid -> list oid;
  show : oid -> Py Document unit
}.

Section WithHost.
Context `{H : DetachHost}.

Definition assign (o : oid) (set : DocumentObject -> DocumentObject)
    : Py Document unit :=
  fun d => (Ok tt, <[o := set (d o)]> d).

(** [l.remove(o)] behind an [if o in l]. *)
Definition removed (o : oid) (l : list oid) : list oid :=
  default l (list_remove o l).

(** Lines 207-233: what is done with the first parent [h] of [o]. In line
    227 [s] is the list read in line 218, and a list has no attribute
    [Base]. *)
Definition leave_parent (o h : oid) : Py Document unit :=
  fun d =>
    let tp := DraftType (d h) in
    (if bool_decide (tp ∈ ["Floor"; "Building"; "Site"; "BuildingPart"]) then
       let c := Group (d h) in
       if bool_decide (o ∈ c) then
         let* _ := assign h (with_Group (removed o c)) in
         show o
       else ret tt
     else if bool_decide (tp ∈ ["Wall"; "Structure"; "Precast"]) then
       let a := Additions (d h) in
       let s := Subtractions (d h) in
       if bool_decide (o ∈ a) then
         let* _ := assign h (with_Additions (removed o a)) in
         show o
       else if bool_decide (o ∈ s) then
         let* _ := assign h (with_Subtractions (removed o s)) in
         show o
       else raise AttributeError
     else if bool_decide (tp ∈ ["SectionPlane"]) then
       let a := Objects (d h) in
       if bool_decide (o ∈ a) then assign h (with_Objects (removed o a))
       else ret tt
     else ret tt) d.

(** Lines 207-236: one pass of the loop. *)
Definition detach (o : oid) : Py Document unit :=
  let* _ := fun d => match InList d o with
                     | h :: _ => leave_parent o h d
                     | [] => (Ok tt, d)
                     end in
  fun d =>
    (if bool_decide (is_Some (Hosts (d o)))
        && String.eqb (DraftType (d o)) "Window"
     then assign o (with_Hosts [])
     else ret tt) d.

(** [removeComponents(objectsList)], with no host (lines 146-147 and
    205-236). *)
Definition removeComponents (objectsList : Components.ObjectsArg)
    : Py Document unit :=
  for_each (Components.as_list objectsList) (fun _ o => detach o) tt.

End WithHost.

Definition blank (type : string) : DocumentObject :=
  {| DraftType := type; Group := []; Additions := []; Subtractions := [];
     Objects := []; Hosts := None |}.

(** A floor (0) with a wall (1) in its group; the wall has a box (2) as an
    addition and a sketch (3) as its base, which none of the list
    properties of the wall names. Parents come in the order of their
    numbers. *)
Definition small_house : Document := fun o =>
  match o with
  | 0%nat => with_Group [1%nat] (blank "Floor")
  | 1%nat => with_Additions [2%nat] (blank "Wall")
  | _ => blank "Part"
  end.

#[local] Instance toy_host : DetachHost := {|
  InList d o := match o with
                | 1%nat => [0%nat]
                | 2%nat => [1%nat]
                | 3%nat => [1%nat]
                | _ => []
                end;
  show o := ret tt
|}.

End Detach.
(** * Theorems *)

(** ** Strings *)

Lemma string_app_cons (a : Ascii.ascii) (s t : string) :
  String a s +:+ t = String a (s +:+ t).
Proof. reflexivity. Qed.

Lemma string_app_assoc (s t u : string) : (s +:+ t) +:+ u = s +:+ (t +:+ u).
Proof.
  induction s as [|a s IH]; [reflexivity|].
  rewrite !string_app_cons. by rewrite IH.
Qed.

Lemma string_app_length (s t : string) :
  String.length (s +:+ t) = (String.length s + String.length t)%nat.
Proof.
  induction s as [|a s IH]; [reflexivity|].
  rewrite string_app_cons. simpl. by rewrite IH.
Qed.

Lemma string_app_nil_r (s : string) : s +:+ "" = s.
Proof.
  induction s as [|a s IH]; [reflexivity|].
  rewrite string_app_cons. by rewrite IH.
Qed.

(** ** getStringList *)

Section StringListFacts.
Import StringList.

Lemma loop_after_first (objects : list DocumentObject) (acc : string) :
  (1 < String.length acc)%nat ->
  fold_left append_name objects acc = acc +:+ comma_tail objects.
Proof.
  revert acc. induction objects as [|o objects IH]; intros acc Hacc; simpl.
  - by rewrite string_app_nil_r.
  - rewrite IH.
    + unfold append_name. apply Nat.ltb_lt in Hacc as ->.
      unfold qualified. by rewrite !string_app_assoc.
    + unfold append_name. rewrite !string_app_length. simpl. lia.
Qed.

Lemma concat_comma_tail (o : DocumentObject) (objects : list DocumentObject) :
  String.concat "," (map qualified (o :: objects))
  = qualified o +:+ comma_tail objects.
Proof.
  revert o. induction objects as [|o' objects IH]; intros o.
  - simpl. by rewrite string_app_nil_r.
  - change (String.concat "," (map qualified (o :: o' :: objects)))
      with (qualified o +:+ "," +:+
            String.concat "," (map qualified (o' :: objects))).
    rewrite IH. reflexivity.
Qed.

(** C8: [getStringList] returns "[]" on the empty list, and on any list the
    bracketed, comma-separated qualified names [FreeCAD.ActiveDocument.N] of
    the objects, in input order. *)
Theorem getStringList_joined_names :
  getStringList [] = "[]" /\
  forall objects : list DocumentObject,
    getStringList objects
    = "[" +:+ String.concat "," (map qualified objects) +:+ "]".
Proof.
  split; [reflexivity|].
  intros [|o objects]; [reflexivity|].
  rewrite concat_comma_tail. unfold getStringList.
  change (fold_left append_name (o :: objects) "[")
    with (fold_left append_name objects (append_name "[" o)).
  rewrite loop_after_first.
  - unfold append_name, qualified. simpl (1 <? _)%nat. cbv iota.
    by rewrite !string_app_assoc.
  - unfold append_name. rewrite !string_app_length. simpl. lia.
Qed.

End StringListFacts.

(** ** makeFace *)

Section MakeFaceFacts.
Import MakeFace.
Context `{K : PartKernel}.

Lemma list_remove_middle (pre post : list Wire) (ext : Wire) :
  (forall w, w ∈ pre -> w <> ext) ->
  list_remove ext (pre ++ ext :: post) = Some (pre ++ post).
Proof.
  induction pre as [|w pre IH]; intros Hpre; simpl.
  - by rewrite decide_True.
  - rewrite decide_False by (apply Hpre; left).
    rewrite IH; [reflexivity|].
    intros w' Hw'. apply Hpre. by right.
Qed.

Lemma scan_step_larger (ext0 : option Wire) (m0 : Q) (w : Wire) :
  (m0 < DiagonalLength w)%Q ->
  scan_step (ext0, m0) w = (Some w, DiagonalLength w).
Proof.
  intros Hlt. unfold scan_step. simpl.
  destruct (Qlt_le_dec m0 (DiagonalLength w)); [reflexivity|lra].
Qed.

Lemma scan_step_not_larger (ext0 : option Wire) (m0 : Q) (w : Wire) :
  (DiagonalLength w <= m0)%Q ->
  scan_step (ext0, m0) w = (ext0, m0).
Proof.
  intros Hle. unfold scan_step. simpl.
  destruct (Qlt_le_dec m0 (DiagonalLength w)); [lra|reflexivity].
Qed.

(** The scan either leaves its state alone, every wire being no larger than
    the running maximum, or stops on the first wire of the largest diagonal. *)
Lemma scan_outcome (wires : list Wire) (ext0 : option Wire) (m0 : Q) :
  (fold_left scan_step wires (ext0, m0) = (ext0, m0) /\
   forall w, w ∈ wires -> (DiagonalLength w <= m0)%Q)
  \/
  (exists pre ext post,
     wires = pre ++ ext :: post /\
     fold_left scan_step wires (ext0, m0) = (Some ext, DiagonalLength ext) /\
     (m0 < DiagonalLength ext)%Q /\
     (forall w, w ∈ pre -> (DiagonalLength w < DiagonalLength ext)%Q) /\
     (forall w, w ∈ post -> (DiagonalLength w <= DiagonalLength ext)%Q)).
Proof.
  revert ext0 m0.
  induction wires as [|w wires IH]; intros ext0 m0.
  - left. split; [reflexivity|]. intros w Hw. inversion Hw.
  - simpl.
    destruct (Qlt_le_dec m0 (DiagonalLength w)) as [Hlt|Hle].
    + right. rewrite (scan_step_larger _ _ _ Hlt).
      destruct (IH (Some w) (DiagonalLength w))
        as [[Hst Hall]|(pre & ext & post & -> & Hst & Hm & Hpre & Hpost)].
      * exists [], w, wires. split_and!; [reflexivity|exact Hst|exact Hlt| |exact Hall].
        intros w' Hw'. inversion Hw'.
      * exists (w :: pre), ext, post.
        split_and!; [reflexivity|exact Hst|lra| |exact Hpost].
        intros w' Hw'. apply elem_of_cons in Hw' as [->|Hw']; auto.
    + rewrite (scan_step_not_larger _ _ _ Hle).
      destruct (IH ext0 m0)
        as [[Hst Hall]|(pre & ext & post & -> & Hst & Hm & Hpre & Hpost)].
      * left. split; [exact Hst|].
        intros w' Hw'. apply elem_of_cons in Hw' as [->|Hw']; auto.
      * right. exists (w :: pre), ext, post.
        split_and!; [reflexivity|exact Hst|exact Hm| |exact Hpost].
        intros w' Hw'. apply elem_of_cons in Hw' as [->|Hw']; auto. lra.
Qed.

Lemma scan_nothing_positive (wires : list Wire) :
  (forall w, w ∈ wires -> (DiagonalLength w <= 0)%Q) ->
  find_exterior wires = (None, 0%Q).
Proof.
  intros Hall. unfold find_exterior.
  destruct (scan_outcome wires None 0%Q)
    as [[Hst _]|(pre & ext & post & -> & _ & Hpos & _)]; [done|].
  assert (Hext : (DiagonalLength ext <= 0)%Q).
  { apply Hall, elem_of_app. right. left. }
  lra.
Qed.

(** The loop of method 2 is the claim's cutting in turn. *)
Lemma cut_loop_in_turn (holes : list Wire) (mf : Shape)
    (log : list PartCall) :
  for_each holes
    (fun mf w => let* f := Part_Face (SingleWire w) in cut mf f) mf log
  = ((cut_in_turn mf holes).1, log ++ (cut_in_turn mf holes).2).
Proof.
  revert mf log. induction holes as [|w holes IH]; intros mf log; simpl.
  - unfold ret. by rewrite app_nil_r.
  - unfold bind at 1. unfold bind at 1. unfold Part_Face at 1.
    destruct (kernel_Face (SingleWire w)) as [f|e]; [|done].
    unfold cut at 1. destruct (kernel_cut mf f) as [mf'|e].
    + rewrite IH. destruct (cut_in_turn mf' holes) as [r calls]. simpl.
      by rewrite <- !app_assoc.
    + simpl. by rewrite <- !app_assoc.
Qed.

Lemma cut_holes_face_with_holes (ext : Wire) (holes : list Wire)
    (log : list PartCall) :
  cut_holes ext holes log
  = ((face_with_holes ext holes).1, log ++ (face_with_holes ext holes).2).
Proof.
  unfold cut_holes, face_with_holes. unfold bind at 1. unfold Part_Face at 1.
  destruct (kernel_Face (SingleWire ext)) as [mf|e]; [|done].
  unfold bind at 1. rewrite cut_loop_in_turn.
  destruct (cut_in_turn mf holes) as [[final|e] calls]; simpl.
  - unfold first_face. rewrite <- app_assoc.
    by destruct (Faces final).
  - by rewrite <- app_assoc.
Qed.

Lemma face_with_holes_calls (ext : Wire) (holes : list Wire) :
  exists calls,
    (face_with_holes ext holes).2 = Call_Face (SingleWire ext) :: calls.
Proof.
  unfold face_with_holes.
  destruct (kernel_Face (SingleWire ext)) as [mf|e]; [|by eexists].
  destruct (cut_in_turn mf holes) as [r calls]. by eexists.
Qed.

(** C1 (amended): for a list of two or more wires, [makeFace] with method 2
    does one of two things. When a wire has a bounding box of positive
    diagonal, it takes as exterior the first wire of the largest diagonal,
    removes it from the list, builds a face on it, cuts a face of every
    remaining wire out of it in list order and returns the first face of
    the result, with these kernel calls and no other. When no wire has a
    positive diagonal, no wire is selected and the call raises
    [ValueError] with no kernel call made. *)
Theorem makeFace_exterior_then_holes (wires : list Wire) :
  (2 <= length wires)%nat ->
  ((exists w, w ∈ wires /\ (0 < DiagonalLength w)%Q) ->
   exists (pre : list Wire) (ext : Wire) (post : list Wire),
     wires = pre ++ ext :: post /\
     (forall w, w ∈ pre -> (DiagonalLength w < DiagonalLength ext)%Q) /\
     (forall w, w ∈ post -> (DiagonalLength w <= DiagonalLength ext)%Q) /\
     forall log, makeFace (WireList wires) 2 false log
                 = ((face_with_holes ext (pre ++ post)).1,
                    log ++ (face_with_holes ext (pre ++ post)).2)) /\
  ((forall w, w ∈ wires -> (DiagonalLength w <= 0)%Q) ->
   forall log, makeFace (WireList wires) 2 false log
               = (Raise ValueError, log)).
Proof.
  intros Hlen. split.
  - intros (w0 & Hin & Hpos).
    destruct (scan_outcome wires None 0%Q)
      as [[_ Hall]|(pre & ext & post & Hw & Hst & _ & Hpre & Hpost)].
    { specialize (Hall w0 Hin). lra. }
    exists pre, ext, post. split_and!; [exact Hw|exact Hpre|exact Hpost|].
    intros log.
    assert (Hrm : list_remove ext wires = Some (pre ++ post)).
    { rewrite Hw. apply list_remove_middle.
      intros w Hwpre Heq. subst w. specialize (Hpre ext Hwpre). lra. }
    destruct wires as [|w1 [|w2 wires']]; simpl in Hlen; try lia.
    unfold makeFace, clean_up. unfold bind at 1. unfold ret, find_exterior.
    rewrite Hst. cbn [fst]. rewrite Hrm. simpl (2 =? 1)%Z. cbv iota.
    apply cut_holes_face_with_holes.
  - intros Hall log. pose proof (scan_nothing_positive wires Hall) as Hscan.
    destruct wires as [|w1 [|w2 wires']]; simpl in Hlen; try lia.
    unfold makeFace, clean_up. unfold bind, ret. by rewrite Hscan.
Qed.

(** C9: a single wire, or a one-element list, whose wire has fewer than
    three vertexes makes [makeFace] raise (the bare [raise] is a
    [RuntimeError]) before any kernel call: no [Part.Face] is built. *)
Theorem makeFace_degenerate_raises (w : Wire) (method : Z) (cleanup : bool)
    (log : list PartCall) :
  (length (Vertexes w) < 3)%nat ->
  makeFace (SingleWire w) method cleanup log = (Raise RuntimeError, log) /\
  makeFace (WireList [w]) method cleanup log = (Raise RuntimeError, log).
Proof.
  intros Hlt. apply Nat.ltb_lt in Hlt.
  unfold makeFace. rewrite Hlt. by split.
Qed.

End MakeFaceFacts.

Lemma makeFace_exterior_then_holes_witness :
  (let wires : list (@MakeFace.Wire MakeFace.sym_kernel) :=
     [(3%Z, 4%nat); (5%Z, 4%nat); (5%Z, 3%nat)] in
   exists pre ext post,
     wires = pre ++ ext :: post /\
     (forall w, w ∈ pre ->
        (MakeFace.DiagonalLength w < MakeFace.DiagonalLength ext)%Q) /\
     (forall w, w ∈ post ->
        (MakeFace.DiagonalLength w <= MakeFace.DiagonalLength ext)%Q) /\
     forall log, MakeFace.makeFace (MakeFace.WireList wires) 2 false log
                 = ((MakeFace.face_with_holes ext (pre ++ post)).1,
                    log ++ (MakeFace.face_with_holes ext (pre ++ post)).2)) /\
  (forall log,
     MakeFace.makeFace (K := MakeFace.sym_kernel)
       (MakeFace.WireList [(0%Z, 4%nat); (0%Z, 3%nat)]) 2 false log
     = (Raise ValueError, log)).
Proof.
  split.
  - intros wires.
    apply (makeFace_exterior_then_holes (K := MakeFace.sym_kernel) wires).
    + simpl. lia.
    + exists (3%Z, 4%nat). split; [left|]. reflexivity.
  - apply (makeFace_exterior_then_holes (K := MakeFace.sym_kernel)
             [(0%Z, 4%nat); (0%Z, 3%nat)]).
    + simpl. lia.
    + intros w Hw. repeat (apply elem_of_cons in Hw as [->|Hw]; [done|]).
      inversion Hw.
Defined.

(** C1 as stated fails: two wires whose bounding boxes both have a zero
    diagonal are a list of two wires, yet no wire is selected; the call
    raises [ValueError] at [wires.remove(ext)], with no face built. *)
Lemma makeFace_zero_diagonals :
  MakeFace.makeFace (K := MakeFace.sym_kernel)
    (MakeFace.WireList [(0%Z, 4%nat); (0%Z, 3%nat)]) 2 false []
  = (Raise ValueError, []) /\
  ~ MakeFace.exterior_then_holes (K := MakeFace.sym_kernel)
      [(0%Z, 4%nat); (0%Z, 3%nat)].
Proof.
  split; [reflexivity|].
  intros (pre & ext & post & _ & _ & _ & Hrun).
  specialize (Hrun []).
  destruct (face_with_holes_calls (K := MakeFace.sym_kernel) ext (pre ++ post))
    as (calls & Hcalls).
  rewrite Hcalls in Hrun. vm_compute in Hrun. discriminate Hrun.
Qed.

Lemma makeFace_degenerate_raises_witness :
  MakeFace.makeFace (K := MakeFace.sym_kernel)
    (MakeFace.SingleWire (7%Z, 2%nat)) 2 false [] = (Raise RuntimeError, []) /\
  MakeFace.makeFace (K := MakeFace.sym_kernel)
    (MakeFace.WireList [(7%Z, 2%nat)]) 2 false [] = (Raise RuntimeError, []).
Proof.
  apply (makeFace_degenerate_raises (K := MakeFace.sym_kernel)). simpl. lia.
Defined.

(** ** pruneIncluded *)

Section PruneFacts.
Import Prune.
Variable doc : oid -> DocumentObject.

Lemma always_kept_toplevel (objectslist newlist : list oid) (strict : bool)
    (obj : oid) :
  always_kept doc obj -> is_toplevel doc objectslist newlist strict obj = true.
Proof.
  intros [Hnot|Htype]; unfold is_toplevel.
  - by rewrite Hnot.
  - destruct (isDerivedFrom doc obj "Part::Feature"); [|reflexivity].
    by rewrite bool_decide_false by (intros Hn; apply Hn, Htype).
Qed.

(** The outer loop from any state: [newlist] grows by a subsequence of the
    objects visited, which holds every object that is always kept. *)
Lemma prune_loop (objectslist : list oid) (strict silent : bool)
    (rest : list oid) (newlist : list oid) (console : list string) :
  exists kept console',
    fold_left (prune_step doc objectslist strict silent) rest
              (newlist, console) = (newlist ++ kept, console') /\
    sublist kept rest /\
    forall obj, obj ∈ rest -> always_kept doc obj -> obj ∈ kept.
Proof.
  revert newlist console.
  induction rest as [|obj rest IH]; intros newlist console.
  - exists [], console. simpl. rewrite app_nil_r.
    split_and!; [reflexivity|constructor|]. intros obj Hin. inversion Hin.
  - simpl.
    destruct (is_toplevel doc objectslist newlist strict obj) eqn:Htop.
    + destruct (IH (newlist ++ [obj]) console)
        as (kept & console' & Hrun & Hsub & Hkept).
      exists (obj :: kept), console'. split_and!.
      * rewrite Hrun. by rewrite <- app_assoc.
      * by constructor.
      * intros o Hin Hk. apply elem_of_cons in Hin as [->|Hin]; [left|right].
        by apply Hkept.
    + destruct (IH newlist (if silent then console else
                 console ++ ["pruning " +:+ Label (doc obj) +:+ newline]))
        as (kept & console' & Hrun & Hsub & Hkept).
      exists kept, console'. split_and!.
      * rewrite <- Hrun. by destruct silent.
      * by constructor.
      * intros o Hin Hk. apply elem_of_cons in Hin as [->|Hin].
        -- rewrite always_kept_toplevel in Htop by done. discriminate.
        -- by apply Hkept.
Qed.

(** C10: the list [pruneIncluded] returns is a subsequence of its input
    (same objects, same relative order), and it holds every input object
    that is not derived from Part::Feature or whose type is Window, Clone,
    Pipe, Rebar or Roof, whatever its parents are. *)
Theorem pruneIncluded_subsequence (objectslist : list oid)
    (strict silent : bool) :
  sublist (fst (pruneIncluded doc objectslist strict silent)) objectslist /\
  forall obj,
    obj ∈ objectslist ->
    isDerivedFrom doc obj "Part::Feature" = false \/
    DraftType (doc obj) ∈ ["Window"; "Clone"; "Pipe"; "Rebar"; "Roof"] ->
    obj ∈ fst (pruneIncluded doc objectslist strict silent).
Proof.
  unfold pruneIncluded.
  destruct (prune_loop objectslist strict silent objectslist [] [])
    as (kept & console' & -> & Hsub & Hkept).
  simpl. split; [exact Hsub|]. intros obj Hin Hk. by apply Hkept.
Qed.

End PruneFacts.

Lemma pruneIncluded_subsequence_witness :
  (1%nat : Prune.oid) ∈ fst (Prune.pruneIncluded Prune.sample_doc
                               [2; 1; 3; 0; 4]%nat false false).
Proof.
  apply (proj2 (pruneIncluded_subsequence Prune.sample_doc
                  [2; 1; 3; 0; 4]%nat false false)).
  - right. left.
  - right. unfold Prune.sample_doc, Prune.plain. simpl. left.
Defined.

(** ** Sorting by key *)

Section SortFacts.
Context {A : Type} (key : A -> Q).

Lemma insert_by_elem (a : A) (sorted : list A) (u : A) :
  u ∈ insert_by key a sorted <-> u = a \/ u ∈ sorted.
Proof.
  induction sorted as [|b sorted IH]; simpl.
  - rewrite list_elem_of_singleton. split; [auto|]. intros [?|H]; [done|inversion H].
  - destruct (Qlt_le_dec (key b) (key a)); rewrite !elem_of_cons; [rewrite IH|]; tauto.
Qed.

Lemma sort_by_elem (l : list A) (u : A) : u ∈ sort_by key l <-> u ∈ l.
Proof.
  induction l as [|a l IH]; simpl; [done|].
  rewrite insert_by_elem, elem_of_cons, IH. tauto.
Qed.

Lemma insert_by_head_least (a : A) (sorted : list A) :
  head_least key sorted -> head_least key (insert_by key a sorted).
Proof.
  destruct sorted as [|b sorted]; simpl.
  - intros _ u Hu. apply list_elem_of_singleton in Hu as ->. lra.
  - intros Hb. destruct (Qlt_le_dec (key b) (key a)) as [Hlt|Hle]; simpl.
    + intros u Hu. apply elem_of_cons in Hu as [->|Hu]; [lra|].
      apply insert_by_elem in Hu as [->|Hu]; [lra|].
      apply Hb. by right.
    + intros u Hu. apply elem_of_cons in Hu as [->|Hu]; [lra|].
      specialize (Hb u Hu). lra.
Qed.

Lemma sort_by_head_least (l : list A) : head_least key (sort_by key l).
Proof.
  induction l as [|a l IH]; simpl; [exact I|].
  by apply insert_by_head_least.
Qed.

Lemma sort_by_head (l : list A) (v : A) (rest : list A) :
  sort_by key l = v :: rest ->
  v ∈ l /\ forall u, u ∈ l -> (key v <= key u)%Q.
Proof.
  intros Hs. split.
  - apply sort_by_elem. rewrite Hs. left.
  - intros u Hu. pose proof (sort_by_head_least l) as Hl. rewrite Hs in Hl.
    apply Hl. rewrite <- Hs. by apply sort_by_elem.
Qed.

End SortFacts.

(** ** getExtrusionData *)

Section ExtrusionFacts.
Import Extrusion.
Context `{K : GeomKernel}.

Lemma faces_with_normals_lookup (fs : list Face) (faces : list (Face * Vector))
    (i : nat) :
  faces_with_normals fs = Some faces ->
  (forall f n, faces !! i = Some (f, n) ->
               fs !! i = Some f /\ normalAt00 f = Some n) /\
  (forall f, fs !! i = Some f ->
             exists n, faces !! i = Some (f, n) /\ normalAt00 f = Some n).
Proof.
  revert faces i. induction fs as [|f0 fs IH]; intros faces i Hfaces.
  - simpl in Hfaces. injection Hfaces as <-. split; intros; discriminate.
  - simpl in Hfaces. destruct (normalAt00 f0) as [n0|] eqn:Hn0; [|discriminate].
    destruct (faces_with_normals fs) as [faces'|]; [|discriminate].
    injection Hfaces as <-.
    destruct i as [|i]; simpl.
    + split.
      * intros f n [= <- <-]. by split.
      * intros f [= <-]. by exists n0.
    + by apply IH.
Qed.

Lemma enumerate_elem {A} (l : list A) (i : nat) (a : A) :
  In (i, a) (enumerate l) <-> l !! i = Some a.
Proof.
  unfold enumerate. rewrite <- list_elem_of_In, elem_of_lookup_imap. split.
  - intros (j & b & [= -> ->] & Hl). exact Hl.
  - intros Hl. by exists i, a.
Qed.

Lemma find_pairs_elem (faces : list (Face * Vector)) (i1 i2 : nat) :
  (i1, i2) ∈ find_pairs faces <->
  exists f1 f2, faces !! i1 = Some f1 /\ faces !! i2 = Some f2 /\
                opposite f1 f2 = true.
Proof.
  unfold find_pairs. rewrite list_elem_of_In, in_flat_map. split.
  - intros ([j1 f1] & Hj1 & Hin). apply in_flat_map in Hin as ([j2 f2] & Hj2 & Hin).
    apply enumerate_elem in Hj1, Hj2.
    destruct (opposite f1 f2) eqn:Hopp; [|destruct Hin].
    destruct Hin as [[= -> ->]|[]]. by exists f1, f2.
  - intros (f1 & f2 & H1 & H2 & Hopp).
    exists (i1, f1). split; [by apply enumerate_elem|].
    apply in_flat_map. exists (i2, f2). split; [by apply enumerate_elem|].
    rewrite Hopp. by left.
Qed.

Lemma opposite_true (f1 f2 : Face) (n1 n2 : Vector) :
  opposite (f1, n1) (f2, n2) = true <->
  hashCode f1 <> hashCode f2 /\ getAngle_round4 n1 n2 = 31416%Z.
Proof.
  unfold opposite. simpl.
  rewrite andb_true_iff, negb_true_iff, Z.eqb_neq, Z.eqb_eq. tauto.
Qed.

Lemma pairs_give_opposite (shape : Shape) (faces : list (Face * Vector))
    (i1 i2 : nat) :
  faces_with_normals (Faces shape) = Some faces ->
  (i1, i2) ∈ find_pairs faces ->
  exists f1 n1 f2 n2,
    faces !! i1 = Some (f1, n1) /\ faces !! i2 = Some (f2, n2) /\
    f1 ∈ Faces shape /\ f2 ∈ Faces shape /\ opposite_normals f1 f2.
Proof.
  intros Hfaces Hin.
  apply find_pairs_elem in Hin as ([f1 n1] & [f2 n2] & H1 & H2 & Hopp).
  apply opposite_true in Hopp as [Hhash Hangle].
  destruct (proj1 (faces_with_normals_lookup _ _ i1 Hfaces) _ _ H1) as [Hf1 Hn1].
  destruct (proj1 (faces_with_normals_lookup _ _ i2 Hfaces) _ _ H2) as [Hf2 Hn2].
  exists f1, n1, f2, n2. split_and!; try done.
  - by eapply list_elem_of_lookup_2.
  - by eapply list_elem_of_lookup_2.
  - split; [done|]. by exists n1, n2.
Qed.

Lemma opposite_gives_pair (shape : Shape) (faces : list (Face * Vector))
    (f1 f2 : Face) :
  faces_with_normals (Faces shape) = Some faces ->
  f1 ∈ Faces shape -> f2 ∈ Faces shape -> opposite_normals f1 f2 ->
  exists i1 i2 n1 n2,
    (i1, i2) ∈ find_pairs faces /\
    faces !! i1 = Some (f1, n1) /\ faces !! i2 = Some (f2, n2) /\
    normalAt00 f1 = Some n1 /\ normalAt00 f2 = Some n2.
Proof.
  intros Hfaces Hf1 Hf2 (Hhash & n1 & n2 & Hn1 & Hn2 & Hangle).
  apply list_elem_of_lookup in Hf1 as [i1 Hi1].
  apply list_elem_of_lookup in Hf2 as [i2 Hi2].
  destruct (proj2 (faces_with_normals_lookup _ _ i1 Hfaces) _ Hi1)
    as (n1' & H1 & Hn1').
  destruct (proj2 (faces_with_normals_lookup _ _ i2 Hfaces) _ Hi2)
    as (n2' & H2 & Hn2').
  assert (n1' = n1) as -> by congruence.
  assert (n2' = n2) as -> by congruence.
  exists i1, i2, n1, n2. split_and!; try done.
  apply find_pairs_elem. exists (f1, n1), (f2, n2).
  split_and!; try done. by apply opposite_true.
Qed.

(** C2: [getExtrusionData] returns None for a null shape, a shape without
    solids, a shape of fewer than three faces and a shape with no two faces
    of distinct hash codes whose normals are opposite (angle rounding to
    3.1416); and whenever it returns extrusion data the shape has such a
    pair of faces. *)
Theorem getExtrusionData_none_without_opposite_pair (shape : Shape)
    (sortmethod : SortMethod) :
  (isNull shape = true \/ Solids shape = [] \/
   (length (Faces shape) < 3)%nat \/ ~ has_opposite_pair shape ->
   getExtrusionData shape sortmethod = Ok None) /\
  (forall data, getExtrusionData shape sortmethod = Ok (Some data) ->
                has_opposite_pair shape).
Proof.
  unfold getExtrusionData. split.
  - intros Hcase.
    destruct (isNull shape); [reflexivity|].
    destruct (Solids shape) as [|s0 solids]; [reflexivity|].
    destruct (length (Faces shape) <? 3)%nat eqn:Hlen; [reflexivity|].
    apply Nat.ltb_ge in Hlen.
    destruct Hcase as [?|[?|[?|Hno]]]; [done|done|lia|].
    destruct (faces_with_normals (Faces shape)) as [faces|] eqn:Hfaces;
      [|reflexivity].
    destruct (find_pairs faces) as [|[i1 i2] pairs] eqn:Hpairs; [reflexivity|].
    exfalso. apply Hno.
    destruct (pairs_give_opposite shape faces i1 i2 Hfaces)
      as (f1 & n1 & f2 & n2 & _ & _ & Hf1 & Hf2 & Hopp).
    { rewrite Hpairs. left. }
    by exists f1, f2.
  - intros data.
    destruct (isNull shape); [discriminate|].
    destruct (Solids shape) as [|s0 solids]; [discriminate|].
    destruct (length (Faces shape) <? 3)%nat; [discriminate|].
    destruct (faces_with_normals (Faces shape)) as [faces|] eqn:Hfaces;
      [|discriminate].
    destruct (find_pairs faces) as [|[i1 i2] pairs] eqn:Hpairs; [discriminate|].
    intros _.
    destruct (pairs_give_opposite shape faces i1 i2 Hfaces)
      as (f1 & n1 & f2 & n2 & _ & _ & Hf1 & Hf2 & Hopp).
    { rewrite Hpairs. left. }
    by exists f1, f2.
Qed.

Lemma find_valids_elem (faces : list (Face * Vector)) (pairs : list (nat * nat))
    (valids : list (Face * Vector)) (v : Face * Vector) :
  find_valids faces pairs = Ok valids ->
  (v ∈ valids <->
   exists i1 i2 f1 f2,
     (i1, i2) ∈ pairs /\ faces !! i1 = Some f1 /\ faces !! i2 = Some f2 /\
     others_perpendicular faces f1 f2 = true /\ v = candidate f1 f2).
Proof.
  revert valids. induction pairs as [|[i1 i2] pairs IH]; intros valids; simpl.
  - intros [= <-]. split.
    + intros Hv. inversion Hv.
    + intros (? & ? & ? & ? & Hin & _). inversion Hin.
  - destruct (faces !! i1) as [f1|] eqn:H1; [|discriminate].
    destruct (faces !! i2) as [f2|] eqn:H2; [|discriminate].
    destruct (find_valids faces pairs) as [rest|e]; [|discriminate].
    simpl. intros [= <-]. specialize (IH rest eq_refl).
    destruct (others_perpendicular faces f1 f2) eqn:Hok.
    + rewrite elem_of_cons, IH. split.
      * intros [->|(j1 & j2 & g1 & g2 & Hin & ?)].
        -- exists i1, i2, f1, f2. split_and!; try done. left.
        -- exists j1, j2, g1, g2. split; [by right|done].
      * intros (j1 & j2 & g1 & g2 & Hin & Hg1 & Hg2 & Hperp & ->).
        apply elem_of_cons in Hin as [[= -> ->]|Hin].
        -- left. congruence.
        -- right. by exists j1, j2, g1, g2.
    + rewrite IH. split.
      * intros (j1 & j2 & g1 & g2 & Hin & ?).
        exists j1, j2, g1, g2. split; [by right|done].
      * intros (j1 & j2 & g1 & g2 & Hin & Hg1 & Hg2 & Hperp & ->).
        apply elem_of_cons in Hin as [[= -> ->]|Hin].
        -- congruence.
        -- by exists j1, j2, g1, g2.
Qed.

Lemma others_perpendicular_true (shape : Shape) (faces : list (Face * Vector))
    (f1 f2 : Face) (n1 n2 : Vector) :
  faces_with_normals (Faces shape) = Some faces ->
  normalAt00 f1 = Some n1 ->
  (others_perpendicular faces (f1, n1) (f2, n2) = true <->
   forall f, f ∈ Faces shape ->
     hashCode f <> hashCode f1 -> hashCode f <> hashCode f2 ->
     exists n n1', normalAt00 f = Some n /\ normalAt00 f1 = Some n1' /\
                   getAngle_round4 n n1' = 15708%Z).
Proof.
  intros Hfaces Hn1. unfold others_perpendicular.
  rewrite forallb_forall. simpl. split.
  - intros Hall f Hf Hh1 Hh2.
    apply list_elem_of_lookup in Hf as [i Hi].
    destruct (proj2 (faces_with_normals_lookup _ _ i Hfaces) _ Hi)
      as (n & Hfn & Hn).
    exists n, n1. split_and!; try done.
    specialize (Hall (f, n)). simpl in Hall.
    rewrite bool_decide_false in Hall.
    + apply Z.eqb_eq, Hall. apply list_elem_of_In. by eapply list_elem_of_lookup_2.
    + rewrite !elem_of_cons. intros [?|[?|Hnil]]; [done|done|inversion Hnil].
  - intros Hall [f n] Hin. simpl.
    apply list_elem_of_In, list_elem_of_lookup in Hin as [i Hi].
    destruct (proj1 (faces_with_normals_lookup _ _ i Hfaces) _ _ Hi) as [Hf Hn].
    destruct (decide (hashCode f = hashCode f1)) as [Heq1|Hne1].
    { rewrite bool_decide_true; [done|]. rewrite Heq1. left. }
    destruct (decide (hashCode f = hashCode f2)) as [Heq2|Hne2].
    { rewrite bool_decide_true; [done|]. rewrite Heq2. right. left. }
    destruct (Hall f) as (n' & n1' & Hn' & Hn1' & Hangle); try done.
    { by eapply list_elem_of_lookup_2. }
    assert (n' = n) as -> by congruence.
    assert (n1' = n1) as -> by congruence.
    apply orb_true_iff. right. by apply Z.eqb_eq.
Qed.

Lemma candidate_lower (f1 f2 : Face) (n1 n2 : Vector) :
  exists other,
    lower_of f1 f2 (candidate (f1, n1) (f2, n2)).1 other /\
    (candidate (f1, n1) (f2, n2)).2
    = sub (CenterOfMass other) (CenterOfMass (candidate (f1, n1) (f2, n2)).1).
Proof.
  unfold candidate, lower_of. simpl.
  destruct (Qlt_le_dec _ _) as [Hlt|Hle]; simpl.
  - exists f2. split_and!; [by left|lra|done].
  - exists f1. split_and!; [by right|lra|done].
Qed.

(** C3: when [getExtrusionData] succeeds it returns a base face and a
    vector, in that order, taken from a valid pair of opposite faces: the
    base face is the member of the pair with the lower centre-of-mass z and
    the vector goes from its centre of mass to the other member's. Among
    the valid pairs the one returned is the one selected: for "area" no
    valid pair has a base face of smaller area, for "z" none has a base
    face with a lower centre of mass, for a 3D point none has a base face
    with its centre of mass closer to the point. *)
Theorem getExtrusionData_base_and_vector (shape : Shape)
    (sortmethod : SortMethod) (base : Face) (vector : Vector) :
  getExtrusionData shape sortmethod = Ok (Some (base, vector)) ->
  extrusion_data shape sortmethod base vector.
Proof.
  unfold getExtrusionData, extrusion_data.
  destruct (isNull shape); [discriminate|].
  destruct (Solids shape) as [|s0 solids]; [discriminate|].
  destruct (length (Faces shape) <? 3)%nat; [discriminate|].
  destruct (faces_with_normals (Faces shape)) as [faces|] eqn:Hfaces;
    [|discriminate].
  remember (find_pairs faces) as pairs eqn:Hpairs.
  destruct pairs as [|p0 pairs']; [discriminate|]. rewrite Hpairs. clear Hpairs.
  destruct (find_valids faces (find_pairs faces)) as [valids|e] eqn:Hvalids;
    [|discriminate].
  simpl. destruct valids as [|v0 valids']; [discriminate|].
  destruct (sort_key sortmethod) as [key|] eqn:Hkey; [|discriminate].
  destruct (sort_by _ (v0 :: valids')) as [|v sorted] eqn:Hsort; [discriminate|].
  intros [= ->].
  apply sort_by_head in Hsort as [Hin Hleast].
  split.
  - apply (find_valids_elem _ _ _ _ Hvalids) in Hin
      as (i1 & i2 & [f1 n1] & [f2 n2] & Hpair & H1 & H2 & Hperp & Hcand).
    destruct (pairs_give_opposite shape faces i1 i2 Hfaces Hpair)
      as (f1' & n1' & f2' & n2' & H1' & H2' & Hf1 & Hf2 & Hopp).
    assert (f1' = f1) as -> by congruence.
    assert (f2' = f2) as -> by congruence.
    destruct (candidate_lower f1 f2 n1 n2) as (other & Hlow & Hvec).
    rewrite <- Hcand in Hlow, Hvec. simpl in Hlow, Hvec.
    exists f1, f2, other. split_and!; try done.
    split_and!; try done.
    destruct (proj1 (faces_with_normals_lookup _ _ i1 Hfaces) _ _ H1) as [_ Hn1].
    by apply (others_perpendicular_true shape faces f1 f2 n1 n2 Hfaces Hn1).
  - intros g1 g2 (Hg1 & Hg2 & Hopp & Hperp).
    destruct (opposite_gives_pair shape faces g1 g2 Hfaces Hg1 Hg2 Hopp)
      as (i1 & i2 & n1 & n2 & Hpair & H1 & H2 & Hn1 & Hn2).
    destruct (candidate_lower g1 g2 n1 n2) as (other & Hlow & _).
    exists (candidate (g1, n1) (g2, n2)).1, other. split; [done|].
    assert (Hle : (key base <= key (candidate (g1, n1) (g2, n2)).1)%Q).
    { apply (Hleast (candidate (g1, n1) (g2, n2))).
      apply (find_valids_elem _ _ _ _ Hvalids).
      exists i1, i2, (g1, n1), (g2, n2). split_and!; try done.
      by apply (others_perpendicular_true shape faces g1 g2 n1 n2 Hfaces Hn1). }
    destruct sortmethod; simpl in Hkey; try discriminate Hkey;
      injection Hkey as <-; exact Hle.
Qed.

End ExtrusionFacts.

Lemma getExtrusionData_none_without_opposite_pair_witness :
  Extrusion.has_opposite_pair (K := Extrusion.toy_kernel) Extrusion.box.
Proof.
  apply (proj2 (getExtrusionData_none_without_opposite_pair
                  (K := Extrusion.toy_kernel) Extrusion.box Extrusion.by_area)
               (Extrusion.box_bottom, Extrusion.vec 0 0 8)).
  reflexivity.
Defined.

Lemma getExtrusionData_base_and_vector_witness :
  Extrusion.extrusion_data (K := Extrusion.toy_kernel)
    Extrusion.box Extrusion.by_area
    Extrusion.box_bottom (Extrusion.vec 0 0 8) /\
  Extrusion.extrusion_data (K := Extrusion.toy_kernel)
    Extrusion.box Extrusion.by_z
    Extrusion.box_bottom (Extrusion.vec 0 0 8) /\
  Extrusion.extrusion_data (K := Extrusion.toy_kernel)
    Extrusion.box (Extrusion.by_point (Extrusion.vec 0 3 4))
    Extrusion.box_left (Extrusion.vec 4 0 0).
Proof.
  split_and!;
    apply (getExtrusionData_base_and_vector (K := Extrusion.toy_kernel));
    reflexivity.
Defined.

(** ** getCutVolume *)

Section CutVolumeFacts.
Import CutVolume.
Context `{K : CutKernel}.





End CutVolumeFacts.



(** ** meshToShape *)

Section MeshFacts.
Import MakeFace MeshToShape.
Context `{K : MeshKernel}.

Lemma removeObject_in_calls (name : string) (solid : Shape) (mark : bool)
    (newobj : handle) :
  removeObject name ∈ conversion_calls name solid mark newobj <->
  isClosed solid = true /\ isValid solid = true.
Proof.
  unfold conversion_calls.
  destruct (isClosed solid), (isValid solid); simpl.
  - split; [done|]. intros _. left.
  - split; [|intros [_ ?]; done].
    rewrite !elem_of_cons. intros [?|[?|Hin]]; try done.
    destruct mark; simpl in Hin.
    + apply list_elem_of_singleton in Hin. done.
    + inversion Hin.
  - split; [|intros [? _]; done].
    rewrite !elem_of_cons. intros [?|[?|Hin]]; try done.
    destruct mark; simpl in Hin.
    + apply list_elem_of_singleton in Hin. done.
    + inversion Hin.
  - split; [|intros [? _]; done].
    rewrite !elem_of_cons. intros [?|[?|Hin]]; try done.
    destruct mark; simpl in Hin.
    + apply list_elem_of_singleton in Hin. done.
    + inversion Hin.
Qed.

(** C5: for an object with a Mesh property [meshToShape] asks
    [getShapeFromMesh] for a shape; when it gets one it adds a Part::Feature
    under the object's name and gives it the shape, having first removed
    the original object exactly when the shape is closed and valid, and
    otherwise colouring the new object red when [mark] is true. It returns
    None, and leaves the document alone, when the object has no Mesh
    property or [getShapeFromMesh] returns None. *)
Theorem meshToShape_conversion (obj : MeshObject) (mark fast : bool) (tol : Q)
    (flat cut : bool) (log : list DocCall) :
  conversion obj mark fast tol flat cut log.
Proof.
  unfold conversion, meshToShape.
  destruct (Mesh_property obj) as [mesh|]; [|reflexivity].
  unfold bind at 1. unfold lift.
  destruct (getShapeFromMesh mesh fast tol flat cut) as [[solid|]|e];
    [|reflexivity|reflexivity].
  exists (length (log ++ if isClosed solid && isValid solid
                         then [removeObject (Name obj)] else [])).
  split; [|apply removeObject_in_calls].
  unfold conversion_calls, bind, when, call, call_addObject, ret.
  destruct (isClosed solid), (isValid solid), mark; simpl;
    rewrite ?app_nil_r, <- ?app_assoc; reflexivity.
Qed.

End MeshFacts.

(** An open shell is added next to the mesh it came from and coloured red;
    a closed one replaces it. *)
Example meshToShape_open_mesh :
  MeshToShape.meshToShape (K := MeshToShape.sym_mesh) MeshToShape.open_mesh
    true true (1 # 1000) false true []
  = (Ok (Some 0%nat),
     [MeshToShape.addObject (K := MeshToShape.sym_mesh) "Part::Feature" "Mesh";
      MeshToShape.set_Shape (K := MeshToShape.sym_mesh) 0%nat
        (MeshToShape.Sshell 2);
      MeshToShape.set_ShapeColor (K := MeshToShape.sym_mesh) 0%nat
        MeshToShape.red]).
Proof. reflexivity. Qed.

Example meshToShape_closed_mesh :
  MeshToShape.meshToShape (K := MeshToShape.sym_mesh) MeshToShape.closed_mesh
    true true (1 # 1000) false true []
  = (Ok (Some 1%nat),
     [MeshToShape.removeObject (K := MeshToShape.sym_mesh) "Mesh";
      MeshToShape.addObject (K := MeshToShape.sym_mesh) "Part::Feature"
        "Mesh";
      MeshToShape.set_Shape (K := MeshToShape.sym_mesh) 1%nat
        (MeshToShape.Ssolid (MeshToShape.Sshell 4))]).
Proof. reflexivity. Qed.

(** ** addComponents *)

Section ComponentsFacts.
Import Components.




Lemma assign_lookup (o o' : oid) (set : DocumentObject -> DocumentObject)
    (d : Document) :
  objects (assign o set d).2 o'
  = if decide (o = o') then set (objects d o) else objects d o'.
Proof.
  unfold assign. simpl. destruct (decide (o = o')) as [->|Hne].
  - apply fn_lookup_insert.
  - by apply fn_lookup_insert_ne.
Qed.











Lemma component_not_group (type : string) :
  type ∈ component_host_types -> type ∉ group_host_types.
Proof.
  unfold component_host_types, group_host_types. intros Hin.
  repeat (apply elem_of_cons in Hin as [->|Hin];
          [by apply (bool_decide_unpack _)|]).
  inversion Hin.
Qed.



End ComponentsFacts.



(** ** removeComponents *)

Section StateInvariants.
Context {S : Type} (R : S -> S -> Prop).
Hypothesis R_refl : forall s, R s s.
Hypothesis R_trans : forall s1 s2 s3, R s1 s2 -> R s2 s3 -> R s1 s3.

Lemma bind_keeps {A B} (m : Py S A) (k : A -> Py S B) (s : S) :
  R s (m s).2 -> (forall a s1, R s1 (k a s1).2) -> R s (bind m k s).2.
Proof.
  intros Hm Hk. unfold bind. destruct (m s) as [[a|e] s1]; simpl in *.
  - by eapply R_trans.
  - done.
Qed.

Lemma for_each_keeps {A B} (body : A -> B -> Py S A) (l : list B) (acc : A)
    (s : S) :
  (forall acc x s1, R s1 (body acc x s1).2) -> R s (for_each l body acc s).2.
Proof.
  intros Hbody. revert acc s. induction l as [|x l IH]; intros acc s; simpl.
  - apply R_refl.
  - apply bind_keeps; [apply Hbody|]. intros a s1. apply IH.
Qed.

End StateInvariants.

Section RemoveFacts.
Import Components.

Lemma keeps_axes_refl (d : Document) : keeps_axes d d.
Proof. by intros o. Qed.

Lemma keeps_axes_trans (d1 d2 d3 : Document) :
  keeps_axes d1 d2 -> keeps_axes d2 d3 -> keeps_axes d1 d3.
Proof. intros H12 H23 o. by rewrite H23, H12. Qed.

Lemma ret_keeps_axes {A} (a : A) (d : Document) : keeps_axes d (ret a d).2.
Proof. by intros o. Qed.

Lemma raise_keeps_axes {A} (e : exn) (d : Document) :
  keeps_axes d (raise (A := A) e d).2.
Proof. by intros o. Qed.

Lemma lift_keeps_axes {A} (r : result A) (d : Document) :
  keeps_axes d (lift r d).2.
Proof. by intros o. Qed.

Lemma read_keeps_axes (o : oid) (d : Document) : keeps_axes d (read o d).2.
Proof. by intros o'. Qed.

Lemma gui_up_keeps_axes (d : Document) : keeps_axes d (gui_up d).2.
Proof. by intros o. Qed.

Lemma call_keeps_axes (c : HostCall) (d : Document) :
  keeps_axes d (call c d).2.
Proof. by intros o. Qed.

Lemma assign_keeps_axes (o : oid) (set : DocumentObject -> DocumentObject)
    (d : Document) :
  (forall ob, Axes (set ob) = Axes ob) -> keeps_axes d (assign o set d).2.
Proof.
  intros Hset o'. rewrite assign_lookup.
  destruct (decide (o = o')) as [<-|]; [apply Hset|done].
Qed.

Create HintDb axes.
#[local] Hint Resolve keeps_axes_refl ret_keeps_axes raise_keeps_axes
  lift_keeps_axes read_keeps_axes gui_up_keeps_axes call_keeps_axes : axes.
#[local] Hint Extern 1 (keeps_axes _ (assign _ _ _).2) =>
  simple apply assign_keeps_axes; intros ?; reflexivity : axes.

(** Splits a sequence of statements or a loop, and closes the steps that
    the hints know to keep the axes. *)
Ltac keeps_axes_step :=
  repeat first
    [ solve [auto with axes nocore]
    | simple apply (bind_keeps keeps_axes keeps_axes_trans); [|intros ? ?]
    | simple apply (for_each_keeps keeps_axes keeps_axes_refl
                                   keeps_axes_trans); intros ? ? ? ].

Lemma add_host_to_window_keeps_axes (o host : oid) (d : Document) :
  keeps_axes d (add_host_to_window o host d).2.
Proof.
  unfold add_host_to_window. keeps_axes_step.
  destruct (Hosts _) as [g|]; [|keeps_axes_step].
  destruct (bool_decide (host ∈ g)); keeps_axes_step.
Qed.

Lemma detach_from_host_keeps_axes (host i : oid) (d : Document) :
  keeps_axes d (detach_from_host host i d).2.
Proof.
  unfold detach_from_host. keeps_axes_step.
  destruct (AttachmentSupport _) as [support|]; [|keeps_axes_step].
  destruct (bool_decide (support_host support = Some host)); keeps_axes_step.
Qed.

#[local] Hint Resolve add_host_to_window_keeps_axes
  detach_from_host_keeps_axes : axes.

Lemma subtract_one_keeps_axes (host : oid) (s : list oid) (o : oid)
    (d : Document) :
  keeps_axes d (subtract_one host s o d).2.
Proof.
  unfold subtract_one. keeps_axes_step.
  destruct (bool_decide (DraftType _ = "Window")); [keeps_axes_step|].
  destruct (bool_decide (o ∈ s)); keeps_axes_step.
  destruct (_ && _); keeps_axes_step.
Qed.

#[local] Hint Resolve subtract_one_keeps_axes : axes.

(** X1: [removeComponents] never assigns an [Axes] property: whatever the
    arguments and whatever the outcome, every object has the axes it had. *)
Lemma removeComponents_keeps_axes (objectsList : ObjectsArg) (host : oid)
    (d : Document) :
  keeps_axes d (removeComponents objectsList host d).2.
Proof.
  unfold removeComponents. keeps_axes_step.
  destruct (bool_decide (DraftType _ ∈ component_host_types)).
  - keeps_axes_step.
    + destruct (Tool _) as [tool|]; [|keeps_axes_step].
      destruct (as_list objectsList) as [|first rest]; [keeps_axes_step|].
      destruct (bool_decide (tool = Some first)); keeps_axes_step.
    + destruct (Axes _) as [axes|]; [|keeps_axes_step].
      keeps_axes_step. match goal with p : _ * _ |- _ => destruct p end.
      keeps_axes_step.
  - destruct (bool_decide (DraftType _ = "SectionPlane")); keeps_axes_step.
Qed.

End RemoveFacts.

Section SubtractFacts.
Import Components.


Lemma evolves_refl (d : Document) : evolves d d.
Proof. intros o. split_and!; try done. intros g Hg. by exists g. Qed.

Lemma evolves_trans (d1 d2 d3 : Document) :
  evolves d1 d2 -> evolves d2 d3 -> evolves d1 d3.
Proof.
  intros H12 H23 o.
  destruct (H12 o) as (? & ? & ? & Hh12). destruct (H23 o) as (? & ? & ? & Hh23).
  split_and!; try congruence.
  intros g Hg. destruct (Hh12 g Hg) as (g' & Hg' & Hsub).
  destruct (Hh23 g' Hg') as (g'' & Hg'' & Hsub').
  exists g''. split; [done|]. intros y Hy. by apply Hsub', Hsub.
Qed.

Lemma same_objects_evolves (d d' : Document) :
  objects d' = objects d -> evolves d d'.
Proof. intros Heq o. rewrite Heq. apply evolves_refl. Qed.

Lemma assign_evolves (o : oid) (set : DocumentObject -> DocumentObject)
    (d : Document) :
  DraftType (set (objects d o)) = DraftType (objects d o) ->
  Subtractions (set (objects d o)) = Subtractions (objects d o) ->
  Tool (set (objects d o)) = Tool (objects d o) ->
  (forall g, Hosts (objects d o) = Some g ->
     exists g', Hosts (set (objects d o)) = Some g' /\ g ⊆ g') ->
  evolves d (assign o set d).2.
Proof.
  intros Ht Hs Hl Hh o'. rewrite assign_lookup.
  destruct (decide (o = o')) as [<-|]; [done|apply evolves_refl].
Qed.

Create HintDb evolve.
#[local] Hint Resolve evolves_refl : evolve.
#[local] Hint Extern 1 (evolves _ (ret _ _).2) =>
  simple apply same_objects_evolves; reflexivity : evolve.
#[local] Hint Extern 1 (evolves _ (read _ _).2) =>
  simple apply same_objects_evolves; reflexivity : evolve.
#[local] Hint Extern 1 (evolves _ (gui_up _).2) =>
  simple apply same_objects_evolves; reflexivity : evolve.
#[local] Hint Extern 1 (evolves _ (call _ _).2) =>
  simple apply same_objects_evolves; reflexivity : evolve.
#[local] Hint Extern 1 (evolves _ (assign _ (with_AttachmentSupport _) _).2) =>
  simple apply assign_evolves;
  [reflexivity|reflexivity|reflexivity|intros g Hg; by exists g] : evolve.

(** The counterpart of [keeps_axes_step] for [evolves]. *)
Ltac evolves_step :=
  repeat first
    [ solve [auto with evolve nocore]
    | simple apply (bind_keeps evolves evolves_trans); [|intros ? ?]
    | simple apply (for_each_keeps evolves evolves_refl evolves_trans);
      intros ? ? ? ].

Lemma add_host_to_window_evolves (o host : oid) (d : Document) :
  evolves d (add_host_to_window o host d).2.
Proof.
  unfold add_host_to_window, bind, read.
  destruct (Hosts (objects d o)) as [g|] eqn:Hg; [|apply evolves_refl].
  destruct (bool_decide (host ∈ g)); [apply evolves_refl|].
  apply assign_evolves; try done.
  intros g' Hg'. rewrite Hg in Hg'. injection Hg' as <-.
  exists (g ++ [host]). split; [done|].
  intros y Hy. apply elem_of_app. by left.
Qed.

Lemma detach_from_host_evolves (host i : oid) (d : Document) :
  evolves d (detach_from_host host i d).2.
Proof.
  unfold detach_from_host. evolves_step.
  destruct (AttachmentSupport _) as [support|]; [|evolves_step].
  destruct (bool_decide (support_host support = Some host)); evolves_step.
Qed.

#[local] Hint Resolve add_host_to_window_evolves
  detach_from_host_evolves : evolve.









End SubtractFacts.


(** C7, at an input where the code departs from it: the axis system 3 is
    among the axes of the structure 6 and is handed to [removeComponents].
    The call succeeds and does not add 3 to the subtractions, but 3 is
    still among the axes of the host afterwards: the list it was removed
    from is a local copy that is never assigned back. *)
Theorem removeComponents_axes_stay :
  Components.Axes (Components.objects Components.sample 6%nat)
  = Some [3%nat] /\
  exists d',
    Components.removeComponents (Components.ObjectList [3%nat]) 6%nat
                                Components.sample = (Ok tt, d') /\
    Components.Axes (Components.objects d' 6%nat) = Some [3%nat] /\
    Components.Subtractions (Components.objects d' 6%nat) = [].
Proof.
  split; [reflexivity|].
  exists (Components.removeComponents (Components.ObjectList [3%nat]) 6%nat
                                      Components.sample).2.
  split_and!; by vm_compute.
Qed.

(** ** makeFace: clean-up, degenerate lists and method 1 *)

Section MakeFaceMore.
Import MakeFace.
Context `{K : PartKernel}.

(** X3: with [cleanup] set, [makeFace] on a list of two or more wires
    raises [NameError] before any kernel call: the clean-up loop names
    [DraftGeomUtils], which the function does not import. *)
Theorem makeFace_cleanup_raises (wires : list Wire) (method : Z)
    (log : list PartCall) :
  (2 <= length wires)%nat ->
  makeFace (WireList wires) method true log = (Raise NameError, log).
Proof.
  intros Hlen. destruct wires as [|w1 [|w2 wires]]; simpl in Hlen; try lia.
  reflexivity.
Qed.

(** X4: on a list that is empty or has two or more wires, none of them
    with a bounding box of positive diagonal, [makeFace] raises
    [ValueError] before any kernel call, whatever the method. *)
Theorem makeFace_no_positive_diagonal (wires : list Wire) (method : Z)
    (log : list PartCall) :
  length wires <> 1%nat ->
  (forall w, w ∈ wires -> (DiagonalLength w <= 0)%Q) ->
  makeFace (WireList wires) method false log = (Raise ValueError, log).
Proof.
  intros Hlen Hall. pose proof (scan_nothing_positive wires Hall) as Hscan.
  destruct wires as [|w1 [|w2 wires]]; [| done |].
  - reflexivity.
  - unfold makeFace, clean_up. unfold bind, ret. by rewrite Hscan.
Qed.

Lemma reverse_loop (holes : list Wire) (present : Wire -> Wire)
    (log : list PartCall) :
  exists present',
    for_each holes reverse present log
    = (Ok present', log ++ map Call_reverse holes) /\
    (forall w, w ∉ holes -> present' w = present w) /\
    (NoDup holes ->
     forall w, w ∈ holes -> present' w = kernel_reverse (present w)).
Proof.
  revert present log.
  induction holes as [|h holes IH]; intros present log; simpl.
  - exists present. unfold ret. rewrite app_nil_r. split_and!; [done|done|].
    intros _ w Hw. inversion Hw.
  - unfold bind at 1. unfold reverse at 1.
    destruct (IH (<[h := kernel_reverse (present h)]> present)
                 (log ++ [Call_reverse h])) as (present' & -> & Hout & Hin).
    exists present'. rewrite <- app_assoc. split_and!; [done| |].
    + intros w Hw. apply not_elem_of_cons in Hw as [Hne Hw].
      rewrite (Hout w Hw). by rewrite fn_lookup_insert_ne.
    + intros Hnd w Hw. apply NoDup_cons in Hnd as [Hh Hnd].
      apply elem_of_cons in Hw as [->|Hw].
      * rewrite (Hout h Hh). by rewrite fn_lookup_insert.
      * rewrite (Hin Hnd w Hw). rewrite fn_lookup_insert_ne; [done|].
        intros ->. done.
Qed.

(** X5: with method 1, on a list of two or more wires that names no wire
    object twice and has a wire of positive diagonal, [makeFace] reverses
    every wire but the exterior one (the first of the largest diagonal),
    once each and in list order, then makes a single [Part.Face] call on
    the list that has the exterior wire first, as it was, and the reversed
    wires behind it, and returns its outcome. *)
Theorem makeFace_method1 (wires : list Wire) (log : list PartCall) :
  (2 <= length wires)%nat ->
  NoDup wires ->
  (exists w, w ∈ wires /\ (0 < DiagonalLength w)%Q) ->
  exists pre ext post,
    wires = pre ++ ext :: post /\
    (forall w, w ∈ pre -> (DiagonalLength w < DiagonalLength ext)%Q) /\
    (forall w, w ∈ post -> (DiagonalLength w <= DiagonalLength ext)%Q) /\
    let sorted := ext :: map kernel_reverse (pre ++ post) in
    makeFace (WireList wires) 1 false log
    = (kernel_Face (WireList sorted),
       log ++ map Call_reverse (pre ++ post) ++ [Call_Face (WireList sorted)]).
Proof.
  intros Hlen Hnd (w0 & Hin & Hpos).
  destruct (scan_outcome wires None 0%Q)
    as [[_ Hall]|(pre & ext & post & Hw & Hst & _ & Hpre & Hpost)].
  { specialize (Hall w0 Hin). lra. }
  exists pre, ext, post. split_and!; [exact Hw|exact Hpre|exact Hpost|].
  assert (Hrm : list_remove ext wires = Some (pre ++ post)).
  { rewrite Hw. apply list_remove_middle.
    intros w Hwpre Heq. subst w. specialize (Hpre ext Hwpre). lra. }
  assert (Hholes : NoDup (pre ++ post) /\ ext ∉ pre ++ post).
  { rewrite Hw in Hnd. apply NoDup_app in Hnd as (Hpre' & Hdis & Hpost').
    apply NoDup_cons in Hpost' as [Hext Hpost'].
    split.
    - apply NoDup_app. split_and!; [done| |done].
      intros w Hwpre Hwpost. apply (Hdis w Hwpre). by right.
    - intros [Hin'|Hin']%elem_of_app; [|done].
      apply (Hdis ext Hin'). left. }
  destruct Hholes as [Hnd' Hext].
  destruct wires as [|w1 [|w2 wires']]; simpl in Hlen; try lia.
  unfold makeFace, clean_up. unfold bind at 1. unfold ret, find_exterior.
  rewrite Hst. cbn [fst]. rewrite Hrm. simpl (1 =? 1)%Z. cbv iota.
  unfold reversed_holes, bind.
  destruct (reverse_loop (pre ++ post) id log)
    as (present' & -> & Hout & Hin').
  assert (Hmap : map present' (ext :: pre ++ post)
                 = ext :: map kernel_reverse (pre ++ post)).
  { simpl. rewrite (Hout ext Hext). f_equal.
    apply map_ext_in. intros w Hwin. apply (Hin' Hnd').
    by apply list_elem_of_In. }
  rewrite Hmap. unfold Part_Face. by rewrite <- app_assoc.
Qed.

End MakeFaceMore.

Lemma makeFace_cleanup_raises_witness :
  MakeFace.makeFace (K := MakeFace.sym_kernel)
    (MakeFace.WireList [(3%Z, 4%nat); (5%Z, 4%nat)]) 2 true []
  = (Raise NameError, []).
Proof.
  apply (makeFace_cleanup_raises (K := MakeFace.sym_kernel)). simpl. lia.
Defined.

Lemma makeFace_no_positive_diagonal_witness :
  MakeFace.makeFace (K := MakeFace.sym_kernel)
    (MakeFace.WireList [(0%Z, 4%nat); (0%Z, 3%nat); (0%Z, 5%nat)]) 1 false []
  = (Raise ValueError, []).
Proof.
  apply (makeFace_no_positive_diagonal (K := MakeFace.sym_kernel)).
  - discriminate.
  - intros w Hw. repeat (apply elem_of_cons in Hw as [->|Hw]; [done|]).
    inversion Hw.
Defined.

Lemma makeFace_method1_witness :
  let wires : list (@MakeFace.Wire MakeFace.oriented_kernel) :=
    [(3%Z, true); (5%Z, true); (4%Z, false)] in
  exists pre ext post,
    wires = pre ++ ext :: post /\
    (forall w, w ∈ pre ->
       (MakeFace.DiagonalLength w < MakeFace.DiagonalLength ext)%Q) /\
    (forall w, w ∈ post ->
       (MakeFace.DiagonalLength w <= MakeFace.DiagonalLength ext)%Q) /\
    let sorted := ext :: map MakeFace.kernel_reverse (pre ++ post) in
    MakeFace.makeFace (MakeFace.WireList wires) 1 false []
    = (MakeFace.kernel_Face (MakeFace.WireList sorted),
       [] ++ map MakeFace.Call_reverse (pre ++ post)
          ++ [MakeFace.Call_Face (MakeFace.WireList sorted)]).
Proof.
  intros wires.
  apply (makeFace_method1 (K := MakeFace.oriented_kernel) wires []).
  - simpl. lia.
  - by apply (bool_decide_unpack _).
  - exists (3%Z, true). split; [left|reflexivity].
Defined.

(** ** pruneIncluded with and without strict *)

Section PruneMore.
Import Prune Subcomponents.
Variable doc : oid -> DocumentObject.

(** Without [strict] the verdict on one parent never goes back to True. *)
Lemma visit_parents_lax (l1 l2 : list oid) (obj : oid) (parents : list oid)
    (toplevel : bool) :
  fold_left (visit_parent doc l1 l2 false obj) parents toplevel
  = toplevel && forallb (fun p => negb (parent_includes doc obj p)) parents.
Proof.
  revert toplevel. induction parents as [|p parents IH]; intros toplevel; simpl.
  - by rewrite andb_true_r.
  - rewrite IH. unfold visit_parent. rewrite andb_false_r.
    destruct (parent_includes doc obj p), toplevel; simpl; try done.
Qed.

Lemma is_toplevel_lax (l1 l2 l3 l4 : list oid) (obj : oid) :
  is_toplevel doc l1 l2 false obj = is_toplevel doc l3 l4 false obj.
Proof.
  unfold is_toplevel.
  destruct (isDerivedFrom doc obj "Part::Feature"); [|done].
  destruct (bool_decide _); [|done]. by rewrite !visit_parents_lax.
Qed.

Lemma prune_lax_filter (objectslist rest newlist : list oid) (silent : bool)
    (console : list string) :
  (fold_left (prune_step doc objectslist false silent) rest
             (newlist, console)).1
  = newlist ++ filter (fun o => is_toplevel doc [] [] false o) rest.
Proof.
  revert newlist console.
  induction rest as [|obj rest IH]; intros newlist console; simpl.
  - by rewrite app_nil_r.
  - rewrite filter_cons.
    rewrite (is_toplevel_lax objectslist newlist [] [] obj).
    destruct (is_toplevel doc [] [] false obj) eqn:Htop.
    + rewrite decide_True by done. rewrite IH. by rewrite <- app_assoc.
    + rewrite decide_False by (by intros ?).
      destruct silent; apply IH.
Qed.

Lemma is_toplevel_lax_subcomponent (l1 l2 : list oid) (obj : oid) :
  is_toplevel doc l1 l2 false obj = negb (subcomponent doc obj).
Proof.
  unfold is_toplevel, subcomponent.
  destruct (isDerivedFrom doc obj "Part::Feature"); [|done].
  destruct (bool_decide _); [|done]. rewrite visit_parents_lax. simpl.
  induction (InList (doc obj)) as [|p ps IH]; [done|]. simpl.
  rewrite IH. by destruct (parent_includes doc obj p).
Qed.

Lemma pruneIncluded_lax_kept (objectslist : list oid) (silent : bool) :
  (pruneIncluded doc objectslist false silent).1
  = filter (fun o => subcomponent doc o = false) objectslist.
Proof.
  unfold pruneIncluded. rewrite prune_lax_filter. simpl.
  apply list_filter_iff. intros o. rewrite is_toplevel_lax_subcomponent.
  destruct (subcomponent doc o); simpl; split; try done.
Qed.

(** X6: without [strict], [pruneIncluded] keeps exactly the objects of the
    list that are not a subcomponent (a Part::Feature, of a type other than
    Window, Clone, Pipe, Rebar and Roof, with a parent that holds it as a
    component), whatever else the list contains; pruning its result again
    changes nothing. *)
Theorem pruneIncluded_lax_filter (objectslist : list oid)
    (silent silent' : bool) :
  (pruneIncluded doc objectslist false silent).1
  = filter (fun o => subcomponent doc o = false) objectslist /\
  (pruneIncluded doc (pruneIncluded doc objectslist false silent).1
                 false silent').1
  = (pruneIncluded doc objectslist false silent).1.
Proof.
  rewrite !pruneIncluded_lax_kept. split; [done|].
  apply list_filter_filter_l. by intros o.
Qed.

(** An object kept without [strict] is top level under [strict] too. *)
Lemma visit_parents_strict (l1 l2 : list oid) (obj : oid) (parents : list oid) :
  forallb (fun p => negb (parent_includes doc obj p)) parents = true ->
  fold_left (visit_parent doc l1 l2 true obj) parents true = true.
Proof.
  induction parents as [|p parents IH]; [done|]. simpl.
  intros [Hp Hps]%andb_true_iff. apply negb_true_iff in Hp.
  unfold visit_parent at 2. rewrite Hp. simpl. by apply IH.
Qed.

Lemma is_toplevel_strict (l1 l2 : list oid) (obj : oid) :
  subcomponent doc obj = false -> is_toplevel doc l1 l2 true obj = true.
Proof.
  unfold is_toplevel, subcomponent.
  destruct (isDerivedFrom doc obj "Part::Feature"); [|done].
  destruct (bool_decide _); [|done]. simpl. intros Hex.
  apply visit_parents_strict.
  induction (InList (doc obj)) as [|p ps IH]; [done|]. simpl in *.
  apply orb_false_iff in Hex as [-> Hex]. by rewrite IH.
Qed.

Lemma prune_strict_loop (objectslist : list oid) (silent : bool)
    (rest newlist : list oid) (console : list string) :
  exists kept console',
    fold_left (prune_step doc objectslist true silent) rest
              (newlist, console) = (newlist ++ kept, console') /\
    sublist (filter (fun o => subcomponent doc o = false) rest) kept.
Proof.
  revert newlist console.
  induction rest as [|obj rest IH]; intros newlist console.
  - exists [], console. simpl. by rewrite app_nil_r.
  - simpl. rewrite filter_cons.
    destruct (decide (subcomponent doc obj = false)) as [Hsub|Hsub].
    + rewrite (is_toplevel_strict objectslist newlist obj Hsub).
      destruct (IH (newlist ++ [obj]) console) as (kept & console' & -> & Hk).
      exists (obj :: kept), console'. rewrite <- app_assoc.
      split; [done|]. by constructor.
    + destruct (is_toplevel doc objectslist newlist true obj).
      * destruct (IH (newlist ++ [obj]) console) as (kept & console' & -> & Hk).
        exists (obj :: kept), console'. rewrite <- app_assoc.
        split; [done|]. by constructor.
      * destruct (IH newlist (if silent then console else
                   console ++ ["pruning " +:+ Label (doc obj) +:+ newline]))
          as (kept & console' & Hrun & Hk).
        exists kept, console'. split; [|done].
        rewrite <- Hrun. by destruct silent.
Qed.

(** X7: [strict] only ever keeps more: the list returned without [strict]
    is a subsequence of the list returned with it. *)
Theorem pruneIncluded_strict_keeps_more (objectslist : list oid)
    (silent silent' : bool) :
  sublist (pruneIncluded doc objectslist false silent).1
          (pruneIncluded doc objectslist true silent').1.
Proof.
  rewrite pruneIncluded_lax_kept.
  unfold pruneIncluded.
  destruct (prune_strict_loop objectslist silent' objectslist [] [])
    as (kept & console' & -> & Hk).
  done.
Qed.

(** Under [strict], a verdict that ends False was left False by the last
    parent, which is then in one of the two lists; and some parent holds
    the object as a component. *)
Lemma visit_parents_false (l1 l2 : list oid) (obj : oid) (parents : list oid) :
  fold_left (visit_parent doc l1 l2 true obj) parents true = false ->
  (exists p, list.last parents = Some p /\ (p ∈ l1 \/ p ∈ l2)) /\
  existsb (parent_includes doc obj) parents = true.
Proof.
  induction parents as [|p parents IH] using rev_ind; [done|].
  rewrite fold_left_app. simpl. rewrite last_snoc, existsb_app. simpl.
  unfold visit_parent at 1.
  destruct (fold_left _ parents true) eqn:Hfold.
  - destruct (parent_includes doc obj p); [|done]. simpl.
    rewrite orb_true_r.
    destruct (bool_decide (p ∉ l1)) eqn:H1; simpl.
    + destruct (bool_decide (p ∉ l2)) eqn:H2; [done|]. intros _.
      apply bool_decide_eq_false in H2. split; [|done].
      exists p. split; [done|]. right.
      by destruct (decide (p ∈ l2)).
    + intros _. apply bool_decide_eq_false in H1. split; [|done].
      exists p. split; [done|]. left. by destruct (decide (p ∈ l1)).
  - destruct (IH eq_refl) as [_ ->]. simpl.
    assert (Hsame : (if parent_includes doc obj p then false else false)
                    = false) by (by destruct (parent_includes doc obj p)).
    rewrite Hsame. simpl.
    destruct (bool_decide (p ∉ l1)) eqn:H1; simpl.
    + destruct (bool_decide (p ∉ l2)) eqn:H2; [done|]. intros _.
      apply bool_decide_eq_false in H2. split; [|done].
      exists p. split; [done|]. right.
      by destruct (decide (p ∈ l2)).
    + intros _. apply bool_decide_eq_false in H1. split; [|done].
      exists p. split; [done|]. left. by destruct (decide (p ∈ l1)).
Qed.

Lemma prune_strict_pruned (objectslist : list oid) (silent : bool)
    (rest newlist : list oid) (console : list string) (obj : oid) :
  (forall x, x ∈ newlist -> x ∈ objectslist) ->
  (forall x, x ∈ rest -> x ∈ objectslist) ->
  obj ∈ rest ->
  obj ∉ (fold_left (prune_step doc objectslist true silent) rest
                   (newlist, console)).1 ->
  (exists p, list.last (InList (doc obj)) = Some p /\ p ∈ objectslist) /\
  subcomponent doc obj = true.
Proof.
  revert newlist console.
  induction rest as [|o rest IH]; intros newlist console Hnew Hrest Hin Hout.
  { inversion Hin. }
  simpl in Hout.
  destruct (is_toplevel doc objectslist newlist true o) eqn:Htop.
  - destruct (prune_loop doc objectslist true silent rest
                         (newlist ++ [o]) console)
      as (kept & console' & Hrun & _ & _).
    apply elem_of_cons in Hin as [->|Hin].
    + exfalso. apply Hout. rewrite Hrun. simpl.
      rewrite <- app_assoc. apply elem_of_app. right. left.
    + apply (IH (newlist ++ [o]) console); try done.
      * intros x [Hx|Hx%list_elem_of_singleton]%elem_of_app; [auto|].
        subst x. apply Hrest. left.
      * intros x Hx. apply Hrest. by right.
  - apply elem_of_cons in Hin as [->|Hin].
    + clear IH Hout. unfold is_toplevel in Htop. unfold subcomponent.
      destruct (isDerivedFrom doc o "Part::Feature"); [|done].
      destruct (bool_decide _); [|done]. simpl.
      apply visit_parents_false in Htop as [(p & Hlast & Hp) Hex].
      split; [|done]. exists p. split; [done|].
      destruct Hp as [Hp|Hp]; auto.
    + apply (IH newlist (if silent then console else
               console ++ ["pruning " +:+ Label (doc o) +:+ newline]));
        try done.
      * intros x Hx. apply Hrest. by right.
      * by destruct silent.
Qed.

(** X8: under [strict], an object of the list that is not returned is a
    subcomponent, and the last of its parents is in the list. *)
Theorem pruneIncluded_strict_pruned (objectslist : list oid) (silent : bool)
    (obj : oid) :
  obj ∈ objectslist ->
  obj ∉ (pruneIncluded doc objectslist true silent).1 ->
  (exists p, list.last (InList (doc obj)) = Some p /\ p ∈ objectslist) /\
  subcomponent doc obj = true.
Proof.
  intros Hin Hout.
  apply (prune_strict_pruned objectslist silent objectslist [] [] obj);
    try done.
  intros x Hx. inversion Hx.
Qed.

End PruneMore.

Lemma pruneIncluded_strict_pruned_witness :
  (exists p, list.last (Prune.InList (Prune.sample_doc 2%nat)) = Some p /\
             p ∈ [2; 0]%nat) /\
  Subcomponents.subcomponent Prune.sample_doc 2%nat = true.
Proof.
  apply (pruneIncluded_strict_pruned Prune.sample_doc [2; 0]%nat false 2%nat).
  - left.
  - vm_compute. intros Hin. apply list_elem_of_singleton in Hin.
    discriminate Hin.
Defined.

(** ** Section planes *)

Section SectionPlaneFacts.
Import Components SectionPlanes.

Lemma list_remove_app_r (a m : list oid) (o : oid) :
  o ∉ a -> list_remove o (a ++ m) = option_map (app a) (list_remove o m).
Proof.
  induction a as [|y a IH]; intros Hnot; simpl.
  - by destruct (list_remove o m).
  - rewrite decide_False by (intros ->; apply Hnot; left).
    rewrite IH by (intros Hin; apply Hnot; by right).
    by destruct (list_remove o m).
Qed.

Lemma list_remove_elem (m : list oid) (o : oid) :
  o ∈ m -> NoDup m ->
  exists m', list_remove o m = Some m' /\ NoDup m' /\
             forall x, x ∈ m' <-> x ∈ m /\ x <> o.
Proof.
  induction m as [|y m IH]; intros Hin Hnd; [inversion Hin|].
  apply NoDup_cons in Hnd as [Hy Hnd]. simpl.
  destruct (decide (y = o)) as [->|Hne].
  - exists m. split_and!; try done. intros x. rewrite elem_of_cons. split.
    + intros Hx. split; [by right|]. by intros ->.
    + by intros [[?|?] ?].
  - apply elem_of_cons in Hin as [->|Hin]; [done|].
    destruct (IH Hin Hnd) as (m' & -> & Hnd' & Hel). simpl.
    exists (y :: m'). split_and!; [done| |].
    + apply NoDup_cons. split; [|done]. rewrite Hel. by intros [? _].
    + intros x. rewrite !elem_of_cons, Hel. split.
      * intros [->|[? ?]]; auto.
      * intros [[->|?] ?]; auto.
Qed.

Lemma add_fold_appended (objectsList a : list oid) :
  fold_left add_object objectsList a = a ++ appended objectsList a.
Proof.
  revert a. induction objectsList as [|o l IH]; intros a; simpl.
  - by rewrite app_nil_r.
  - unfold add_object at 2. destruct (bool_decide (o ∈ a)); [apply IH|].
    rewrite IH. by rewrite <- app_assoc.
Qed.

Lemma appended_spec (objectsList a : list oid) :
  NoDup (appended objectsList a) /\
  forall x, x ∈ appended objectsList a <-> x ∈ objectsList /\ x ∉ a.
Proof.
  revert a. induction objectsList as [|o l IH]; intros a; simpl.
  - split; [constructor|]. intros x. split; [inversion 1|].
    intros [Hx _]. inversion Hx.
  - destruct (bool_decide (o ∈ a)) eqn:Ho.
    + apply bool_decide_eq_true in Ho. destruct (IH a) as [Hnd Hel].
      split; [done|]. intros x. rewrite Hel, elem_of_cons. split.
      * intros [? ?]; auto.
      * intros [[->|?] ?]; [done|auto].
    + apply bool_decide_eq_false in Ho. destruct (IH (a ++ [o])) as [Hnd Hel].
      split.
      * apply NoDup_cons. split; [|done]. rewrite Hel, elem_of_app.
        intros [_ Hn]. apply Hn. right. left.
      * intros x. rewrite !elem_of_cons, Hel, elem_of_app, list_elem_of_singleton.
        split.
        -- intros [->|[? ?]]; auto.
        -- intros [[->|?] ?]; [auto|].
           destruct (decide (x = o)) as [->|Hne]; [auto|]. right. tauto.
Qed.

Lemma remove_fold_appended (objectsList a m : list oid) :
  (forall o, o ∈ objectsList -> o ∉ a) ->
  NoDup m -> (forall x, x ∈ m -> x ∈ objectsList) ->
  fold_left remove_object objectsList (a ++ m) = a.
Proof.
  revert m. induction objectsList as [|o l IH]; intros m Hdis Hnd Hsub; simpl.
  - destruct m as [|x m]; [by rewrite app_nil_r|].
    exfalso. assert (Hx : x ∈ @nil oid) by (apply Hsub; left). inversion Hx.
  - assert (Hoa : o ∉ a) by (apply Hdis; left).
    assert (Hdis' : forall o', o' ∈ l -> o' ∉ a).
    { intros o' Ho'. apply Hdis. by right. }
    unfold remove_object at 2.
    destruct (decide (o ∈ m)) as [Hom|Hom].
    + rewrite bool_decide_true by (apply elem_of_app; by right).
      rewrite list_remove_app_r by done.
      destruct (list_remove_elem m o Hom Hnd) as (m' & -> & Hnd' & Hel).
      simpl. apply IH; try done.
      intros x Hx. apply Hel in Hx as [Hx Hne].
      apply Hsub, elem_of_cons in Hx as [->|Hx]; done.
    + rewrite bool_decide_false
        by (intros [?|?]%elem_of_app; done).
      apply IH; try done.
      intros x Hx. pose proof (Hsub x Hx) as Hx'.
      apply elem_of_cons in Hx' as [->|Hx']; done.
Qed.

Lemma assign_Objects_differ (host : oid) (v : list oid) (d : Document) :
  only_Objects_differ host d (assign host (with_Objects v) d).2.
Proof.
  split_and!; try done. intros o. rewrite !assign_lookup.
  rewrite (decide_True (P := host = host)) by done.
  destruct (decide (host = o)) as [->|Hne].
  - by rewrite decide_True.
  - by rewrite (decide_False (P := o = host)) by (by intros ->).
Qed.

(** X9: on a section plane, [addComponents] appends to [host.Objects] the
    listed objects that are not in it, each once and in list order, and
    touches nothing else; when none of the listed objects was in it,
    [removeComponents] with the same list then restores the original
    [host.Objects]. *)
Theorem section_plane_add_then_remove (l : list oid) (host : oid)
    (d : Document) :
  DraftType (objects d host) = "SectionPlane" ->
  exists d1,
    addComponents (ObjectList l) host d = (Ok tt, d1) /\
    only_Objects_differ host d d1 /\
    Objects (objects d1 host)
    = Objects (objects d host) ++ appended l (Objects (objects d host)) /\
    ((forall o, o ∈ l -> o ∉ Objects (objects d host)) ->
     exists d2,
       removeComponents (ObjectList l) host d1 = (Ok tt, d2) /\
       only_Objects_differ host d d2 /\
       Objects (objects d2 host) = Objects (objects d host)).
Proof.
  intros Htype.
  assert (Hng : "SectionPlane" ∉ group_host_types)
    by (by apply (bool_decide_unpack _)).
  assert (Hnc : "SectionPlane" ∉ component_host_types)
    by (by apply (bool_decide_unpack _)).
  set (a1 := fold_left add_object l (Objects (objects d host))).
  exists (assign host (with_Objects a1) d).2.
  assert (Hobj1 : Objects (objects (assign host (with_Objects a1) d).2 host)
                  = a1).
  { by rewrite assign_lookup, decide_True. }
  split_and!.
  - unfold addComponents. unfold bind at 1. unfold read at 1. cbv beta iota.
    rewrite Htype.
    rewrite (bool_decide_false (_ ∈ group_host_types)) by done.
    rewrite (bool_decide_false (_ ∈ component_host_types)) by done.
    rewrite (bool_decide_true ("SectionPlane" = "SectionPlane")) by done.
    done.
  - apply assign_Objects_differ.
  - rewrite Hobj1. apply add_fold_appended.
  - intros Hdis.
    set (d1 := (assign host (with_Objects a1) d).2) in *.
    set (a2 := fold_left remove_object l (Objects (objects d1 host))).
    assert (Ha2 : a2 = Objects (objects d host)).
    { unfold a2. rewrite Hobj1. unfold a1. rewrite add_fold_appended.
      destruct (appended_spec l (Objects (objects d host))) as [Hnd Hel].
      apply remove_fold_appended; try done.
      intros x Hx. by apply Hel in Hx as [? _]. }
    assert (Htype1 : DraftType (objects d1 host) = "SectionPlane").
    { unfold d1. by rewrite assign_lookup, decide_True. }
    exists (assign host (with_Objects a2) d1).2. split_and!.
    + unfold removeComponents. unfold bind at 1. unfold read at 1.
      cbv beta iota. rewrite Htype1.
      rewrite (bool_decide_false (_ ∈ component_host_types)) by done.
      rewrite (bool_decide_true ("SectionPlane" = "SectionPlane")) by done.
      done.
    + split_and!; try done. intros o. unfold d1. rewrite !assign_lookup.
      rewrite !(decide_True (P := host = host)) by done.
      destruct (decide (host = o)) as [->|Hne].
      * rewrite ?decide_True by done. reflexivity.
      * by rewrite (decide_False (P := o = host)) by (by intros ->).
    + by rewrite assign_lookup, decide_True.
Qed.

End SectionPlaneFacts.

Lemma section_plane_add_then_remove_witness :
  exists d1,
    Components.addComponents (Components.ObjectList [4; 2; 4]%nat) 0%nat
                             SectionPlanes.plane_doc = (Ok tt, d1) /\
    SectionPlanes.only_Objects_differ 0%nat SectionPlanes.plane_doc d1 /\
    Components.Objects (Components.objects d1 0%nat)
    = Components.Objects (Components.objects SectionPlanes.plane_doc 0%nat)
      ++ SectionPlanes.appended [4; 2; 4]%nat
           (Components.Objects
              (Components.objects SectionPlanes.plane_doc 0%nat)) /\
    ((forall o, o ∈ [4; 2; 4]%nat ->
        o ∉ Components.Objects
              (Components.objects SectionPlanes.plane_doc 0%nat)) ->
     exists d2,
       Components.removeComponents (Components.ObjectList [4; 2; 4]%nat)
                                   0%nat d1 = (Ok tt, d2) /\
       SectionPlanes.only_Objects_differ 0%nat SectionPlanes.plane_doc d2 /\
       Components.Objects (Components.objects d2 0%nat)
       = Components.Objects
           (Components.objects SectionPlanes.plane_doc 0%nat)).
Proof.
  apply (section_plane_add_then_remove [4; 2; 4]%nat 0%nat
                                       SectionPlanes.plane_doc).
  reflexivity.
Defined.

(** ** No duplicates among additions and axes *)

Section NoDupFacts.
Import Components.

Lemma grown_NoDup (R : Prop) `{!Decision R} (l : list oid) (o : oid) :
  NoDup l -> NoDup (if decide (R /\ o ∉ l) then l ++ [o] else l).
Proof.
  intros Hnd. destruct (decide _) as [[_ Hnot]|]; [|done].
  apply NoDup_app. split_and!; [done| |apply NoDup_singleton].
  intros x Hx ->%list_elem_of_singleton. done.
Qed.

Lemma for_each_cons_inv {S A B} (body : A -> B -> Py S A) (x : B)
    (l : list B) (acc r : A) (s s' : S) :
  for_each (x :: l) body acc s = (Ok r, s') ->
  exists acc1 s1, body acc x s = (Ok acc1, s1) /\
                  for_each l body acc1 s1 = (Ok r, s').
Proof.
  simpl. unfold bind. destruct (body acc x s) as [[acc1|e] s1]; [|done].
  intros Hrun. by exists acc1, s1.
Qed.

Lemma add_one_NoDup (host o : oid) (hostType : string) (a a1 : list oid)
    (x x1 : option (list oid)) (d d1 : Document) :
  add_one host hostType (a, x) o d = (Ok (a1, x1), d1) ->
  (NoDup a -> NoDup a1) /\
  (x = None <-> x1 = None) /\
  (forall axes axes1, x = Some axes -> x1 = Some axes1 ->
                      NoDup axes -> NoDup axes1).
Proof.
  assert (Hsame : a1 = a -> x1 = x ->
            (NoDup a -> NoDup a1) /\
            (x = None <-> x1 = None) /\
            (forall axes axes1, x = Some axes -> x1 = Some axes1 ->
                                NoDup axes -> NoDup axes1)).
  { intros -> ->. split_and!; try done. by intros axes axes1 -> [= <-]. }
  unfold add_one. unfold bind at 1. unfold read at 1.
  destruct (Shape (objects d o)) as [shape|]; [|by intros [= <- <- _]; auto].
  destruct (bool_decide (DraftType (objects d o) = "Window")).
  { unfold bind. destruct (add_host_to_window o host d) as [[[]|e] d2];
      [|done]. intros [= <- <- _]. auto. }
  destruct (isValidPath shape && bool_decide (hostType ∈ tool_host_types)).
  { destruct (AttachmentSupport (objects d o)) as [support|]; [|done].
    unfold bind.
    destruct (bool_decide (support = SupportObject host));
      intros [= <- <- _]; auto. }
  destruct (bool_decide (DraftType (objects d o) = "Axis")).
  { destruct x as [axes|]; [|done].
    destruct (bool_decide (o ∈ axes)) eqn:Hin; intros [= <- <- _]; [auto|].
    apply bool_decide_eq_false in Hin. split_and!; try done.
    intros axes0 axes1 [= <-] [= <-] Hnd.
    apply NoDup_app. split_and!; [done| |apply NoDup_singleton].
    intros y Hy ->%list_elem_of_singleton. done. }
  destruct (bool_decide (o ∈ a)) eqn:Hin; intros [= <- <- _]; [auto|].
  apply bool_decide_eq_false in Hin. split_and!; try done.
  - intros Hnd. apply NoDup_app. split_and!; [done| |apply NoDup_singleton].
    intros y Hy ->%list_elem_of_singleton. done.
  - by intros axes axes1 -> [= <-].
Qed.

Lemma add_loop_NoDup (host : oid) (hostType : string) (objs : list oid) :
  forall (d d' : Document) (a a' : list oid) (x x' : option (list oid)),
    for_each objs (add_one host hostType) (a, x) d = (Ok (a', x'), d') ->
    (NoDup a -> NoDup a') /\
    (x = None <-> x' = None) /\
    (forall axes axes', x = Some axes -> x' = Some axes' ->
                        NoDup axes -> NoDup axes').
Proof.
  induction objs as [|o objs IH]; intros d d' a a' x x' Hrun.
  - simpl in Hrun. injection Hrun as <- <- <-. split_and!; try done.
    by intros axes axes' -> [= <-].
  - apply for_each_cons_inv in Hrun as ([a1 x1] & d1 & Hstep & Hrun).
    destruct (add_one_NoDup _ _ _ _ _ _ _ _ _ Hstep) as (Hnda1 & Hn1 & Hndx1).
    destruct (IH _ _ _ _ _ _ Hrun) as (Hnda & Hn & Hndx).
    split_and!; [auto|by rewrite Hn1|].
    intros axes axes' -> -> Hnd.
    destruct x1 as [axes1|].
    + apply (Hndx axes1 axes'); try done. by apply (Hndx1 axes axes1).
    + destruct Hn1 as [_ Hn1]. by specialize (Hn1 eq_refl).
Qed.

(** X10: [addComponents] on a host of a component type never makes a
    duplicate: when host.Additions (host.Axes) had no object twice before
    the call, it has none twice after it. *)
Theorem addComponents_no_duplicates (objectsList : ObjectsArg) (host : oid)
    (d d' : Document) :
  DraftType (objects d host) ∈ component_host_types ->
  addComponents objectsList host d = (Ok tt, d') ->
  (NoDup (Additions (objects d host)) -> NoDup (Additions (objects d' host)))
  /\
  (forall axes axes',
     Axes (objects d host) = Some axes -> Axes (objects d' host) = Some axes' ->
     NoDup axes -> NoDup axes').
Proof.
  intros Hcomp. unfold addComponents. unfold bind at 1. unfold read at 1.
  cbv beta iota.
  rewrite (bool_decide_false (_ ∈ group_host_types))
    by (by apply component_not_group).
  rewrite (bool_decide_true (_ ∈ component_host_types)) by done.
  unfold bind at 1.
  destruct (for_each _ _ _ d) as [[[a' x']|e] d1] eqn:Hrun; [|done].
  destruct (add_loop_NoDup _ _ _ _ _ _ _ _ _ Hrun) as (Hnda & Hn & Hndx).
  set (d2 := (assign host (with_Additions a') d1).2).
  assert (Hfin : bind (assign host (with_Additions a'))
                   (fun _ => match x' with
                             | Some axes => assign host (with_Axes (Some axes))
                             | None => ret tt
                             end) d1
                 = (Ok tt, match x' with
                           | Some axes =>
                               (assign host (with_Axes (Some axes)) d2).2
                           | None => d2
                           end)).
  { by destruct x'. }
  rewrite Hfin. intros [= <-]. unfold d2.
  destruct x' as [axes1|].
  - cbn [objects]. rewrite !fn_lookup_insert.
    cbn [Additions Axes with_Axes with_Additions].
    split; [done|]. intros axes axes' Hax [= <-]. by apply (Hndx axes).
  - rewrite !assign_lookup, !(decide_True (P := host = host)) by done.
    split; [done|]. intros axes axes' Hax _.
    destruct Hn as [_ Hn]. rewrite Hn in Hax; done.
Qed.

End NoDupFacts.

Lemma addComponents_no_duplicates_witness :
  let d' := (Components.addComponents (Components.ObjectList [2; 3; 4; 4]%nat)
                                      0%nat Components.sample).2 in
  (NoDup (Components.Additions (Components.objects Components.sample 0%nat)) ->
   NoDup (Components.Additions (Components.objects d' 0%nat))) /\
  (forall axes axes',
     Components.Axes (Components.objects Components.sample 0%nat) = Some axes ->
     Components.Axes (Components.objects d' 0%nat) = Some axes' ->
     NoDup axes -> NoDup axes').
Proof.
  apply (addComponents_no_duplicates
           (Components.ObjectList [2; 3; 4; 4]%nat) 0%nat Components.sample).
  - by apply (bool_decide_unpack _).
  - by vm_compute.
Defined.

(** ** getAllChildren *)

Section ChildrenFacts.
Import Children.
Variable OutList : oid -> list oid.

Lemma append_new_elem (obs : list oid) (c x : oid) :
  x ∈ append_new obs c <-> x ∈ obs \/ x = c.
Proof.
  unfold append_new. case_bool_decide as Hc.
  - split; [by left|]. intros [H| ->]; done.
  - rewrite elem_of_app, list_elem_of_singleton. done.
Qed.

Lemma append_new_NoDup (obs : list oid) (c : oid) :
  NoDup obs -> NoDup (append_new obs c).
Proof.
  intros Hnd. unfold append_new. case_bool_decide as Hc; [done|].
  apply NoDup_app. split_and!; [done| |apply NoDup_singleton].
  intros x Hx Hx'. apply list_elem_of_singleton in Hx'. by subst.
Qed.

Lemma foldl_append_new_elem (l obs : list oid) (x : oid) :
  x ∈ foldl append_new obs l <-> x ∈ obs \/ x ∈ l.
Proof.
  revert obs. induction l as [|c l IH]; intros obs; simpl.
  - split; [by left|]. intros [H|H]; [done|inversion H].
  - rewrite IH, append_new_elem, elem_of_cons. tauto.
Qed.

Lemma foldl_append_new_NoDup (l obs : list oid) :
  NoDup obs -> NoDup (foldl append_new obs l).
Proof.
  revert obs. induction l as [|c l IH]; intros obs Hnd; simpl; [done|].
  by apply IH, append_new_NoDup.
Qed.

Lemma reached_cons (o : oid) (l : list oid) (x : oid) :
  reached OutList (o :: l) x
  <-> x = o \/ reached OutList (OutList o) x \/ reached OutList l x.
Proof.
  split.
  - intros (r & Hr & Hrtc). apply elem_of_cons in Hr as [->|Hr].
    + destruct (rtc_inv _ _ Hrtc) as [->|(c & Hc & Hrest)]; [by left|].
      right; left. by exists c.
    + right; right. by exists r.
  - intros [->|[(c & Hc & Hrtc)|(r & Hr & Hrtc)]].
    + exists o. split; [left|done].
    + exists o. split; [left|]. by eapply rtc_l.
    + exists r. split; [by right|done].
Qed.

Lemma reached_nil (x : oid) : ~ reached OutList [] x.
Proof. intros (r & Hr & _). inversion Hr. Qed.

Lemma visit_sound (rec : list oid -> option (list oid)) :
  sound OutList rec ->
  forall l obs0 obs, visit OutList rec l obs0 = Some obs -> NoDup obs0 ->
    NoDup obs /\ forall x, x ∈ obs <-> x ∈ obs0 \/ reached OutList l x.
Proof.
  intros Hrec l. induction l as [|o l IH]; intros obs0 obs Hv Hnd.
  - simpl in Hv. injection Hv as <-. split; [done|].
    intros x. split; [by left|]. intros [H|H]; [done|].
    by apply reached_nil in H.
  - simpl in Hv. destruct (OutList o) as [|c cs] eqn:Hout.
    + apply IH in Hv as [Hnd' Hel]; [|by apply append_new_NoDup].
      split; [done|]. intros x. rewrite Hel, append_new_elem, reached_cons.
      rewrite Hout. pose proof (reached_nil x). tauto.
    + destruct (rec (c :: cs)) as [lc|] eqn:Hr; [|done].
      apply Hrec in Hr as [_ Hlc].
      apply IH in Hv as [Hnd' Hel];
        [|by apply foldl_append_new_NoDup, append_new_NoDup].
      split; [done|]. intros x.
      rewrite Hel, foldl_append_new_elem, append_new_elem, reached_cons, Hlc.
      rewrite Hout. tauto.
Qed.

Lemma getAllChildren_sound (fuel : nat) :
  sound OutList (getAllChildren OutList fuel).
Proof.
  induction fuel as [|fuel IH]; intros l obs H; [done|].
  simpl in H. apply (visit_sound _ IH) in H as [Hnd Hel]; [|apply NoDup_nil_2].
  split; [done|]. intros x. rewrite Hel. split; [|by right].
  intros [H|H]; [inversion H|done].
Qed.

(** X11: what [getAllChildren] returns has no object twice, and holds
    exactly the objects of [objectlist] and the objects reached from them
    along [OutList] links. *)
Theorem getAllChildren_reached (fuel : nat) (objectlist obs : list oid) :
  getAllChildren OutList fuel objectlist = Some obs ->
  NoDup obs /\ forall c, c ∈ obs <-> reached OutList objectlist c.
Proof. apply getAllChildren_sound. Qed.

Lemma visit_returns (rec : list oid -> option (list oid)) (l : list oid) :
  (forall o, o ∈ l -> OutList o <> [] -> is_Some (rec (OutList o))) ->
  forall obs0, is_Some (visit OutList rec l obs0).
Proof.
  induction l as [|o l IH]; intros Hrec obs0; simpl; [done|].
  destruct (OutList o) as [|c cs] eqn:Hout.
  - apply IH. intros o' Ho'. apply Hrec. by right.
  - destruct (Hrec o) as [lc Hlc]; [left|by rewrite Hout|].
    rewrite Hout in Hlc. rewrite Hlc. apply IH.
    intros o' Ho'. apply Hrec. by right.
Qed.

Lemma getAllChildren_enough (rank : oid -> nat) (depth : nat)
    (objectlist : list oid) :
  (forall o c, c ∈ OutList o -> (rank c < rank o)%nat) ->
  (forall o, o ∈ objectlist -> (rank o <= depth)%nat) ->
  is_Some (getAllChildren OutList (S depth) objectlist).
Proof.
  intros Hrank. revert objectlist.
  induction depth as [|depth IH]; intros l Hl; simpl; apply visit_returns.
  - intros o Ho Hout. destruct (OutList o) as [|c cs] eqn:Hc; [done|].
    specialize (Hl o Ho). specialize (Hrank o c).
    rewrite Hc in Hrank. specialize (Hrank (list_elem_of_here _ _)). lia.
  - intros o Ho _. apply IH. intros c Hc.
    specialize (Hl o Ho). specialize (Hrank o c Hc). lia.
Qed.

Lemma visit_mono (rec rec' : list oid -> option (list oid)) :
  (forall l obs, rec l = Some obs -> rec' l = Some obs) ->
  forall l obs0 obs, visit OutList rec l obs0 = Some obs ->
                     visit OutList rec' l obs0 = Some obs.
Proof.
  intros Hrec l. induction l as [|o l IH]; intros obs0 obs Hv; simpl in *.
  - done.
  - destruct (OutList o) as [|c cs]; [by apply IH|].
    destruct (rec (c :: cs)) as [lc|] eqn:Hr; [|done].
    rewrite (Hrec _ _ Hr). by apply IH.
Qed.

Lemma getAllChildren_deeper (fuel fuel' : nat) (l obs : list oid) :
  (fuel <= fuel')%nat ->
  getAllChildren OutList fuel l = Some obs ->
  getAllChildren OutList fuel' l = Some obs.
Proof.
  revert fuel' l obs. induction fuel as [|fuel IH]; intros fuel' l obs Hle H.
  - done.
  - destruct fuel' as [|fuel']; [lia|]. simpl in *.
    revert H. apply visit_mono. intros l' obs'. apply IH. lia.
Qed.

(** X12: when the links cannot go round (every object ranks above the
    objects of its [OutList]), [getAllChildren] returns, and returns the
    same list with every bound on the depth of its calls that is above the
    ranks of the objects of [objectlist]. *)
Theorem getAllChildren_returns (rank : oid -> nat) (depth : nat)
    (objectlist : list oid) :
  (forall o c, c ∈ OutList o -> (rank c < rank o)%nat) ->
  (forall o, o ∈ objectlist -> (rank o <= depth)%nat) ->
  exists obs, forall fuel, (depth < fuel)%nat ->
    getAllChildren OutList fuel objectlist = Some obs.
Proof.
  intros Hrank Hl.
  destruct (getAllChildren_enough rank depth objectlist Hrank Hl) as [obs H].
  exists obs. intros fuel Hlt. revert H. apply getAllChildren_deeper. lia.
Qed.

End ChildrenFacts.

Lemma getAllChildren_reached_witness :
  NoDup [0; 1; 3; 2]%nat /\
  forall c, c ∈ [0; 1; 3; 2]%nat
            <-> Children.reached Children.diamond [0; 1]%nat c.
Proof.
  apply (getAllChildren_reached Children.diamond 3 [0; 1]%nat).
  reflexivity.
Defined.

Lemma getAllChildren_returns_witness :
  exists obs, forall fuel, (2 < fuel)%nat ->
    Children.getAllChildren Children.diamond fuel [0; 1]%nat = Some obs.
Proof.
  apply (getAllChildren_returns Children.diamond Children.diamond_rank 2
                                [0; 1]%nat).
  - intros [|[|[|o]]] c Hc; simpl in Hc;
      repeat (apply elem_of_cons in Hc as [->|Hc]; [simpl; lia|]);
      inversion Hc.
  - intros o Ho.
    repeat (apply elem_of_cons in Ho as [->|Ho]; [simpl; lia|]).
    inversion Ho.
Defined.

(** ** getHost *)

Section HostingFacts.
Import Prune Hosting.
Variable doc : oid -> DocumentObject.

Lemma first_host_parent (obj par : oid) :
  first_host doc obj = Some par ->
  par ∈ InList (doc obj) /\ can_host doc par = true.
Proof.
  unfold first_host. intros H. apply find_some in H as [Hin Hc].
  split; [by apply list_elem_of_In|done].
Qed.


Lemma getHost_deeper (fuel fuel' : nat) (obj : oid) (strict : bool)
    (r : option oid) :
  (fuel <= fuel')%nat ->
  getHost doc fuel obj strict = Some r -> getHost doc fuel' obj strict = Some r.
Proof.
  revert fuel' obj. induction fuel as [|fuel IH]; intros fuel' obj Hle H.
  - done.
  - destruct fuel' as [|fuel']; [lia|]. simpl in *.
    destruct (first_host doc obj) as [par|]; [|done].
    destruct strict; [|done].
    destruct (negb _); [done|]. apply IH; [lia|done].
Qed.

Lemma getHost_enough (rank : oid -> nat) (strict : bool) (depth : nat)
    (obj : oid) :
  (forall o p, p ∈ InList (doc o) -> (rank p < rank o)%nat) ->
  (rank obj <= depth)%nat ->
  is_Some (getHost doc (S depth) obj strict).
Proof.
  intros Hrank. revert obj.
  induction depth as [|depth IH]; intros obj Hle; simpl.
  - destruct (first_host doc obj) as [par|] eqn:Hf; [|done].
    apply first_host_parent in Hf as [Hin _].
    specialize (Hrank obj par Hin). lia.
  - destruct (first_host doc obj) as [par|] eqn:Hf; [|done].
    destruct strict; [|done]. destruct (negb _); [done|].
    apply first_host_parent in Hf as [Hin _].
    apply IH. specialize (Hrank obj par Hin). lia.
Qed.

(** X14: when the parent links cannot go round (every object ranks above
    its parents), [getHost] returns, and returns the same with every bound
    on the depth of its calls above the rank of [obj]. *)
Theorem getHost_returns (rank : oid -> nat) (strict : bool) (obj : oid) :
  (forall o p, p ∈ InList (doc o) -> (rank p < rank o)%nat) ->
  exists r, forall fuel, (rank obj < fuel)%nat ->
    getHost doc fuel obj strict = Some r.
Proof.
  intros Hrank.
  destruct (getHost_enough rank strict (rank obj) obj Hrank) as [r Hr]; [lia|].
  exists r. intros fuel Hlt. revert Hr. apply getHost_deeper. lia.
Qed.

End HostingFacts.


Lemma getHost_returns_witness :
  exists r, forall fuel, (Hosting.storey_rank 2%nat < fuel)%nat ->
    Hosting.getHost Hosting.storey fuel 2%nat true = Some r.
Proof.
  apply (getHost_returns Hosting.storey Hosting.storey_rank true 2%nat).
  intros [|[|[|o]]] p Hp; simpl in Hp;
    repeat (apply elem_of_cons in Hp as [->|Hp]; [simpl; lia|]);
    inversion Hp.
Defined.

(** ** toggleIfcBrepFlag *)

Section IfcFlagFacts.
Import IfcFlag.
Variable translate : string -> string -> string.

Lemma toggled_flag (label : string) (d : gmap string string) :
  (toggled translate label d).1
  = <["FlagForceBrep" :=
        if bool_decide (d !! "FlagForceBrep" = Some "True")
        then "False" else "True"]> d.
Proof.
  unfold toggled. destruct (d !! "FlagForceBrep") as [flag|] eqn:Hd.
  - destruct (String.eqb flag "True") eqn:Hf.
    + apply String.eqb_eq in Hf. subst. by rewrite bool_decide_true.
    + apply String.eqb_neq in Hf. rewrite bool_decide_false; [done|].
      intros [= ->]. done.
  - by rewrite bool_decide_false.
Qed.

Lemma toggle_data (obj : DocumentObject) (console : list string) :
  IfcData (toggleIfcBrepFlag translate obj console).1
  = (fun d => (toggled translate (Label obj) d).1) <$> IfcData obj.
Proof.
  unfold toggleIfcBrepFlag. destruct (IfcData obj) as [d|] eqn:Hd; simpl.
  - by destruct (toggled translate (Label obj) d).
  - by rewrite Hd.
Qed.

Lemma toggle_label (obj : DocumentObject) (console : list string) :
  Label (toggleIfcBrepFlag translate obj console).1 = Label obj.
Proof.
  unfold toggleIfcBrepFlag. destruct (IfcData obj) as [d|]; simpl; [|done].
  by destruct (toggled translate (Label obj) d).
Qed.

Lemma object_eq (a b : DocumentObject) :
  Label a = Label b -> IfcData a = IfcData b -> a = b.
Proof. destruct a, b. simpl. by intros -> ->. Qed.

(** X15: on an object with [IfcData], [toggleIfcBrepFlag] leaves every
    key but "FlagForceBrep" as it was, and sets that one to "False" when it
    was "True" and to "True" in every other case, a missing key and a
    value that is neither of the two among them. *)
Theorem toggleIfcBrepFlag_flag (obj : DocumentObject) (console : list string)
    (d : gmap string string) :
  IfcData obj = Some d ->
  exists d', IfcData (toggleIfcBrepFlag translate obj console).1 = Some d' /\
    (forall k, k <> "FlagForceBrep" -> d' !! k = d !! k) /\
    d' !! "FlagForceBrep"
    = Some (if bool_decide (d !! "FlagForceBrep" = Some "True")
            then "False" else "True").
Proof.
  intros Hd. rewrite toggle_data, Hd. simpl. eexists. split; [done|].
  rewrite toggled_flag. split.
  - intros k Hk. by rewrite lookup_insert_ne.
  - by rewrite lookup_insert_eq.
Qed.

(** X16: two calls of [toggleIfcBrepFlag] give the object back as it was
    exactly when it has no [IfcData] or its flag was "True" or "False". In
    every case they leave the label and every key but the flag as they
    were, and leave the flag at "True" when it was "True" and at "False"
    otherwise, a missing key and any other value among them. *)
Theorem toggleIfcBrepFlag_twice (obj : DocumentObject)
    (console console' : list string) :
  ((toggleIfcBrepFlag translate
      (toggleIfcBrepFlag translate obj console).1 console').1 = obj
   <-> match IfcData obj with
       | Some d => d !! "FlagForceBrep" = Some "True" \/
                   d !! "FlagForceBrep" = Some "False"
       | None => True
       end) /\
  Label (toggleIfcBrepFlag translate
           (toggleIfcBrepFlag translate obj console).1 console').1
  = Label obj /\
  IfcData (toggleIfcBrepFlag translate
             (toggleIfcBrepFlag translate obj console).1 console').1
  = (fun d => <["FlagForceBrep" :=
                  if bool_decide (d !! "FlagForceBrep" = Some "True")
                  then "True" else "False"]> d) <$> IfcData obj.
Proof.
  set (obj1 := (toggleIfcBrepFlag translate obj console).1).
  set (obj2 := (toggleIfcBrepFlag translate obj1 console').1).
  assert (Hl : Label obj2 = Label obj).
  { unfold obj2, obj1. by rewrite !toggle_label. }
  assert (Hd : IfcData obj2
               = (fun d => <["FlagForceBrep" :=
                               if bool_decide
                                    (d !! "FlagForceBrep" = Some "True")
                               then "True" else "False"]> d)
                   <$> IfcData obj).
  { unfold obj2. rewrite toggle_data. unfold obj1 at 2. rewrite toggle_data.
    destruct (IfcData obj) as [d|]; simpl; [|done].
    rewrite !toggled_flag. rewrite lookup_insert_eq, insert_insert_eq.
    f_equal. f_equal. by repeat case_bool_decide. }
  split_and!; [|exact Hl|exact Hd].
  assert (Heq : obj2 = obj <-> IfcData obj2 = IfcData obj).
  { split; [by intros ->|]. by apply object_eq. }
  rewrite Heq, Hd. clear Heq Hd Hl obj2.
  destruct (IfcData obj) as [d|]; simpl; [|done].
  split.
  - intros [= H].
    assert (H' := f_equal (fun m => m !! "FlagForceBrep") H). simpl in H'.
    rewrite lookup_insert_eq in H'. rewrite <- H'.
    case_bool_decide; [by left|by right].
  - intros [H|H]; rewrite H; repeat case_bool_decide; try done;
      f_equal; by apply insert_id.
Qed.

End IfcFlagFacts.

Lemma toggleIfcBrepFlag_flag_witness :
  let d : gmap string string := {[ "FlagForceBrep" := "True" ]} in
  let obj := {| IfcFlag.Label := "Wall"; IfcFlag.IfcData := Some d |} in
  exists d',
    IfcFlag.IfcData (IfcFlag.toggleIfcBrepFlag (fun _ s => s) obj []).1
    = Some d' /\
    (forall k, k <> "FlagForceBrep" -> d' !! k = d !! k) /\
    d' !! "FlagForceBrep"
    = Some (if bool_decide (d !! "FlagForceBrep" = Some "True")
            then "False" else "True").
Proof.
  intros d obj.
  apply (toggleIfcBrepFlag_flag (fun _ s => s) obj [] d). reflexivity.
Defined.

(** ** closeHole *)

Section CloseHoleFacts.
Import CloseHole.
Context `{K : HoleKernel}.

Lemma hash_count_snoc (l : list Edge) (e : Edge) (hc : Z) :
  hash_count (l ++ [e]) hc
  = (hash_count l hc + if decide (hashCode e = hc) then 1 else 0)%nat.
Proof.
  unfold hash_count. rewrite filter_app, length_app. f_equal.
  rewrite filter_cons, filter_nil. by destruct (decide (hashCode e = hc)).
Qed.

Lemma hash_count_zero (l : list Edge) (hc : Z) :
  hash_count l hc = 0%nat <-> forall e, e ∈ l -> hashCode e <> hc.
Proof.
  unfold hash_count. rewrite length_zero_iff_nil. split.
  - intros Hnil e He Hhc.
    assert (Hin : e ∈ filter (fun e => hashCode e = hc) l)
      by by apply list_elem_of_filter.
    rewrite Hnil in Hin. inversion Hin.
  - intros Hall. destruct (filter _ l) as [|e l'] eqn:Hf; [done|].
    assert (Hin : e ∈ filter (fun e => hashCode e = hc) l)
      by (rewrite Hf; left).
    apply list_elem_of_filter in Hin as [Hhc Hin]. by destruct (Hall e Hin).
Qed.

Lemma count_edge_tallies (lut : gmap Z nat) (l : list Edge) (e : Edge) :
  tallies lut l -> tallies (count_edge lut e) (l ++ [e]).
Proof.
  intros Ht hc. rewrite hash_count_snoc. unfold count_edge.
  pose proof (Ht (hashCode e)) as He.
  destruct (decide (hashCode e = hc)) as [<-|Hne].
  - destruct (decide (hash_count l (hashCode e) = 0%nat)) as [Hz|Hnz].
    + rewrite He, lookup_insert_eq, Hz. simpl. done.
    + rewrite He, lookup_insert_eq.
      rewrite decide_False by lia. done.
  - rewrite Nat.add_0_r.
    destruct (lut !! hashCode e); rewrite lookup_insert_ne by done; apply Ht.
Qed.

Lemma count_edges_tallies (es : list Edge) (lut : gmap Z nat)
    (l : list Edge) :
  tallies lut l -> tallies (foldl count_edge lut es) (l ++ es).
Proof.
  revert lut l. induction es as [|e es IH]; intros lut l Ht; simpl.
  - by rewrite app_nil_r.
  - replace (l ++ e :: es) with ((l ++ [e]) ++ es) by by rewrite <- app_assoc.
    by apply IH, count_edge_tallies.
Qed.

Lemma count_faces_tallies (fs : list Face) (lut : gmap Z nat)
    (l : list Edge) :
  tallies lut l ->
  tallies (foldl (fun lut face => foldl count_edge lut (face_Edges face))
                 lut fs)
          (l ++ concat (map face_Edges fs)).
Proof.
  revert lut l. induction fs as [|f fs IH]; intros lut l Ht; simpl.
  - by rewrite app_nil_r.
  - rewrite app_assoc. by apply IH, count_edges_tallies.
Qed.

Lemma lookup_table_tallies (shape : Shape) :
  tallies (lookup_table shape) (face_edges shape).
Proof.
  unfold lookup_table, face_edges.
  apply (count_faces_tallies (Faces shape) ∅ []).
  intros hc. by rewrite lookup_empty.
Qed.

Lemma face_edges_elem (shape : Shape) (e : Edge) :
  e ∈ face_edges shape
  <-> exists f, f ∈ Faces shape /\ e ∈ face_Edges f.
Proof.
  unfold face_edges. induction (Faces shape) as [|f fs IH]; simpl.
  - split; [intros H; inversion H|]. intros (f & Hf & _). inversion Hf.
  - rewrite elem_of_app, IH. split.
    + intros [He|(f' & Hf' & He)].
      * exists f. split; [left|done].
      * exists f'. split; [by right|done].
    + intros (f' & Hf' & He). apply elem_of_cons in Hf' as [->|Hf'].
      * by left.
      * right. by exists f'.
Qed.

Lemma boundary_KeyError (lut : gmap Z nat) (l edges bound : list Edge) :
  tallies lut l ->
  (exists hc, boundary lut edges bound = inl hc)
  <-> exists e, e ∈ edges /\ hash_count l (hashCode e) = 0%nat.
Proof.
  intros Ht. revert bound.
  induction edges as [|e edges IH]; intros bound; simpl.
  - split; [by intros [hc ?]|]. intros (e & He & _). inversion He.
  - rewrite (Ht (hashCode e)).
    destruct (decide (hash_count l (hashCode e) = 0%nat)) as [Hz|Hnz].
    + split; [|by eexists]. intros _. exists e. split; [left|done].
    + rewrite IH. split.
      * intros (e' & He' & Hz). exists e'. split; [by right|done].
      * intros (e' & He' & Hz). apply elem_of_cons in He' as [->|He'];
          [done|]. by exists e'.
Qed.

Lemma boundary_filter (lut : gmap Z nat) (l edges bound : list Edge) :
  tallies lut l ->
  (forall e, e ∈ edges -> hash_count l (hashCode e) <> 0%nat) ->
  boundary lut edges bound
  = inr (bound ++ filter (fun e => hash_count l (hashCode e) = 1%nat) edges).
Proof.
  intros Ht. revert bound.
  induction edges as [|e edges IH]; intros bound Hall; simpl.
  - by rewrite app_nil_r.
  - rewrite (Ht (hashCode e)).
    rewrite decide_False by (apply Hall; left).
    rewrite IH by (intros e' He'; apply Hall; by right).
    rewrite filter_cons.
    destruct (decide (hash_count l (hashCode e) = 1%nat)) as [H1|H1].
    + rewrite H1. simpl. by rewrite <- app_assoc.
    + by rewrite (proj2 (Nat.eqb_neq _ _) H1).
Qed.

(** X17: [closeHole] raises [KeyError] exactly when the shape has an
    edge whose hash code is that of no edge of any of its faces. *)
Theorem closeHole_KeyError (shape : Shape) :
  (exists hc, closeHole shape = KeyError hc)
  <-> exists e, e ∈ Edges shape /\
        forall f e', f ∈ Faces shape -> e' ∈ face_Edges f ->
                     hashCode e' <> hashCode e.
Proof.
  pose proof (boundary_KeyError _ _ (Edges shape) []
                (lookup_table_tallies shape)) as Hb.
  assert (Hk : (exists hc, closeHole shape = KeyError hc)
               <-> exists hc, boundary (lookup_table shape) (Edges shape) []
                              = inl hc).
  { unfold closeHole.
    destruct (boundary (lookup_table shape) (Edges shape) []) as [hc|bound].
    - split; intros _; by exists hc.
    - split; intros [hc Hhc]; [|done].
      by destruct (solid_of shape bound). }
  rewrite Hk, Hb. split; intros (e & He & Hz); exists e; (split; [done|]).
  - intros f e' Hf He'. apply (proj1 (hash_count_zero _ _) Hz).
    apply face_edges_elem. by exists f.
  - apply hash_count_zero. intros e' He'.
    apply face_edges_elem in He' as (f & Hf & He'). by apply (Hz f).
Qed.

Lemma solid_of_returns (shape : Shape) (bound : list Edge) (solid : Solid) :
  solid_of shape bound = Ok solid <-> closes_with shape bound solid.
Proof.
  unfold solid_of, closes_with, result_bind. split.
  - intros Hrun.
    destruct (sortEdges bound) as [sorted|] eqn:Hsorted; [|done].
    destruct (Part_Wire sorted) as [wire|] eqn:Hwire; [|done].
    destruct (Part_Face wire) as [nface|] eqn:Hface; [|done].
    destruct (makeShell (Faces shape ++ [nface])) as [shell|] eqn:Hshell;
      [|done].
    by exists sorted, wire, nface, shell.
  - intros (sorted & wire & nface & shell & -> & -> & -> & -> & ->). done.
Qed.

Lemma solid_of_raises (shape : Shape) (bound : list Edge) (e : exn) :
  solid_of shape bound = Raise e <-> kernel_raises shape bound e.
Proof.
  unfold solid_of, kernel_raises, result_bind. split.
  - intros Hrun.
    destruct (sortEdges bound) as [sorted|] eqn:Hsorted; simpl in Hrun;
      [right|left; congruence].
    exists sorted. split; [done|].
    destruct (Part_Wire sorted) as [wire|] eqn:Hwire; simpl in Hrun;
      [right|left; congruence].
    exists wire. split; [done|].
    destruct (Part_Face wire) as [nface|] eqn:Hface; simpl in Hrun;
      [right|left; congruence].
    exists nface. split; [done|].
    destruct (makeShell (Faces shape ++ [nface])) as [shell|] eqn:Hshell;
      simpl in Hrun; [right|left; congruence].
    by exists shell.
  - intros [->|(sorted & -> & [->|(wire & -> & [->|(nface & -> & [->|
              (shell & -> & ->)])])])]; done.
Qed.

(** X18: when every edge of the shape has the hash code of an edge of
    one of its faces, the edges [closeHole] makes the closing face from are
    the edges of the shape whose hash code occurs once among the edges of
    all faces, in the order of [shape.Edges]. The call returns a solid
    exactly when these edges, sorted, make a wire, the wire a face, the
    faces of the shape with that face behind them a shell, and the shell
    that solid; it raises an exception exactly when one of these kernel
    calls raises it, the calls before it having returned. *)
Theorem closeHole_boundary (shape : Shape) :
  (forall e, e ∈ Edges shape ->
     exists f e', f ∈ Faces shape /\ e' ∈ face_Edges f /\
                  hashCode e' = hashCode e) ->
  (forall solid,
     closeHole shape = Returned solid
     <-> closes_with shape
           (filter (fun e => occurrences shape (hashCode e) = 1%nat)
                   (Edges shape)) solid) /\
  (forall e,
     closeHole shape = Raised e
     <-> kernel_raises shape
           (filter (fun e => occurrences shape (hashCode e) = 1%nat)
                   (Edges shape)) e).
Proof.
  intros Hall.
  assert (Hrun : closeHole shape
                 = match solid_of shape
                           (filter (fun e => occurrences shape (hashCode e)
                                             = 1%nat) (Edges shape)) with
                   | Ok solid => Returned solid
                   | Raise e => Raised e
                   end).
  { unfold closeHole.
    rewrite (boundary_filter _ (face_edges shape));
      [done|apply lookup_table_tallies|].
    intros e He Hz. destruct (Hall e He) as (f & e' & Hf & He' & Hhc).
    apply (proj1 (hash_count_zero _ _) Hz e'); [|done].
    apply face_edges_elem. by exists f. }
  rewrite Hrun. split.
  - intros solid. rewrite <- solid_of_returns.
    destruct (solid_of shape _) as [s|e]; split; congruence.
  - intros e. rewrite <- solid_of_raises.
    destruct (solid_of shape _) as [s|e']; split; congruence.
Qed.

End CloseHoleFacts.

Lemma closeHole_boundary_witness :
  CloseHole.closes_with (K := CloseHole.toy_kernel) CloseHole.two_triangles
    (filter (fun e => CloseHole.occurrences (K := CloseHole.toy_kernel)
                        CloseHole.two_triangles
                        (CloseHole.hashCode e) = 1%nat)
            (CloseHole.Edges (HoleKernel := CloseHole.toy_kernel)
                             CloseHole.two_triangles))
    (CloseHole.two_triangles ++ [[1; 3; 4; 5]%Z]).
Proof.
  apply (closeHole_boundary (K := CloseHole.toy_kernel)
           CloseHole.two_triangles).
  - intros e He.
    apply (proj1 (elem_of_remove_dups (concat CloseHole.two_triangles) e))
      in He.
    apply (proj1 (face_edges_elem (K := CloseHole.toy_kernel)
                    CloseHole.two_triangles e)) in He as (f & Hf & He).
    by exists f, e.
  - reflexivity.
Defined.

(** ** check *)

Section CheckFacts.
Import Check.
Context `{H : CheckHost}.

Lemma count_solids (o : Obj) (sols : list Solid) (f : nat) (bad : list entry) :
  exists bad',
    foldl (count_solid o) (f, bad) sols
    = ((f + foldr (fun sol n => (length (solid_Faces sol) + n)%nat) 0%nat sols)
         %nat, bad') /\
    (length bad <= length bad')%nat /\
    (length bad' = length bad
     <-> forall sol, sol ∈ sols -> solid_isClosed sol = true).
Proof.
  revert f bad. induction sols as [|sol sols IH]; intros f bad; simpl.
  - exists bad. rewrite Nat.add_0_r. split_and!; [done|done|].
    split; [|done]. intros _ sol Hsol. inversion Hsol.
  - destruct (solid_isClosed sol) eqn:Hc; simpl.
    + destruct (IH (f + length (solid_Faces sol))%nat bad)
        as (bad' & Heq & Hle & Hiff).
      exists bad'. rewrite Heq. split_and!; [f_equal; lia|done|].
      rewrite Hiff. split.
      * intros Hall s Hs. apply elem_of_cons in Hs as [->|Hs]; [done|].
        by apply Hall.
      * intros Hall s Hs. apply Hall. by right.
    + destruct (IH (f + length (solid_Faces sol))%nat
                  (bad ++ [(o, translate "Arch" "contains a non-closed solid")]))
        as (bad' & Heq & Hle & Hiff).
      rewrite length_app in Hle. simpl in Hle.
      exists bad'. rewrite Heq. split_and!; [f_equal; lia|lia|].
      split; [lia|]. intros Hall. specialize (Hall sol (list_elem_of_here _ _)).
      congruence.
Qed.

Lemma check_object_grows (bad : list entry) (o : Obj) :
  (length bad <= length (check_object bad o))%nat /\
  (length (check_object bad o) = length bad <-> is_sound o).
Proof.
  unfold check_object, is_sound.
  destruct (obj_Shape o) as [s|] eqn:Hs.
  2:{ rewrite length_app. simpl. split; [lia|]. split; [lia|].
      by intros (s & Hs' & _). }
  assert (Hns : match Solids s with [] => true | _ => false end = true
                <-> Solids s = []) by by destruct (Solids s).
  assert (Hax : String.eqb (getType o) "Axis" = true <-> getType o = "Axis")
    by apply String.eqb_eq.
  destruct (negb (isClosed s) && negb (String.eqb (getType o) "Axis"))
    eqn:Hc1.
  { rewrite length_app. simpl. split; [lia|]. split; [lia|].
    intros (s' & [= <-] & Hc & _).
    apply andb_true_iff in Hc1 as [H1 H2].
    apply negb_true_iff in H1, H2.
    destruct Hc as [Hc|Hc]; [congruence|]. apply Hax in Hc. congruence. }
  destruct (negb (isValid s)) eqn:Hc2.
  { rewrite length_app. simpl. split; [lia|]. split; [lia|].
    intros (s' & [= <-] & _ & Hv & _).
    apply negb_true_iff in Hc2. congruence. }
  destruct (match Solids s with [] => true | _ => false end
            && negb (String.eqb (getType o) "Axis")) eqn:Hc3.
  { rewrite length_app. simpl. split; [lia|]. split; [lia|].
    intros (s' & [= <-] & _ & _ & Hc & _).
    apply andb_true_iff in Hc3 as [H1 H2].
    apply Hns in H1. apply negb_true_iff in H2.
    destruct Hc as [Hc|Hc]; [congruence|]. apply Hax in Hc. congruence. }
  assert (Hclosed : isClosed s = true \/ getType o = "Axis").
  { apply andb_false_iff in Hc1 as [H1|H1]; apply negb_false_iff in H1.
    - by left.
    - right. by apply Hax. }
  assert (Hvalid : isValid s = true) by by apply negb_false_iff.
  assert (Hsolids : Solids s <> [] \/ getType o = "Axis").
  { apply andb_false_iff in Hc3 as [H1|H1].
    - left. intros Hnil. apply Hns in Hnil. congruence.
    - right. apply negb_false_iff in H1. by apply Hax. }
  destruct (count_solids o (Solids s) 0 bad) as (bad' & Heq & Hle & Hiff).
  rewrite Heq. simpl (0 + _)%nat. fold (solid_faces s).
  destruct (length (Faces s) =? solid_faces s)%nat eqn:Hf; simpl.
  - apply Nat.eqb_eq in Hf. split; [done|]. rewrite Hiff. split.
    + intros Hall. by exists s.
    + by intros (s' & [= <-] & _ & _ & _ & Hall & _).
  - apply Nat.eqb_neq in Hf. rewrite length_app. simpl. split; [lia|].
    split; [lia|]. by intros (s' & [= <-] & _ & _ & _ & _ & Hfaces).
Qed.

Lemma check_loop (objs : list Obj) (bad : list entry) :
  (length bad <= length (foldl check_object bad objs))%nat /\
  (length (foldl check_object bad objs) = length bad
   <-> forall o, o ∈ objs -> is_sound o).
Proof.
  revert bad. induction objs as [|o objs IH]; intros bad; simpl.
  - split; [done|]. split; [|done]. intros _ o Ho. inversion Ho.
  - destruct (IH (check_object bad o)) as [Hle Hiff].
    destruct (check_object_grows bad o) as [Hle' Hiff'].
    split; [lia|]. split.
    + intros Hlen o' Ho'. apply elem_of_cons in Ho' as [->|Ho'].
      * apply Hiff'. lia.
      * apply Hiff; [lia|done].
    + intros Hall.
      assert (H1 : length (check_object bad o) = length bad).
      { apply Hiff', Hall. left. }
      rewrite <- H1. apply Hiff. intros o' Ho'. apply Hall. by right.
Qed.

(** X19: [check] returns an empty list exactly when every object it
    looks at has a shape that is closed (or the object is an axis), valid,
    with a solid (or the object is an axis), with closed solids only, and
    with as many faces as its solids have together. The objects it looks
    at are the group contents of the argument when [includehidden] is set,
    and what [Draft.removeHidden] leaves of them when it is not. *)
Theorem check_nothing_bad (objectslist : list Obj) (includehidden : bool) :
  check objectslist includehidden = []
  <-> forall o,
        o ∈ (if includehidden then get_group_contents objectslist
             else removeHidden (get_group_contents objectslist)) ->
        is_sound o.
Proof.
  unfold check.
  destruct (check_loop (checked objectslist includehidden) []) as [_ Hiff].
  assert (Hobjs : checked objectslist includehidden
                  = if includehidden then get_group_contents objectslist
                    else removeHidden (get_group_contents objectslist)).
  { unfold checked. by destruct includehidden. }
  rewrite <- Hobjs, <- Hiff. simpl. split; [by intros ->|].
  by destruct (foldl _ _ _).
Qed.

End CheckFacts.

(** ** removeComponents without a host *)

Section DetachFacts.
Import Detach.
Context `{H : DetachHost}.

(** X20: [removeComponents] without a host raises [AttributeError], with
    nothing changed, when the first object of the list has a wall, a
    structure or a precast element as its first parent and is in neither
    the additions nor the subtractions of that parent: the branch meant
    for the base of the parent reads [Base] from a list. *)
Theorem removeComponents_base_raises (objectsList : Components.ObjectsArg)
    (o h : oid) (parents rest : list oid) (d : Document) :
  Components.as_list objectsList = o :: rest ->
  InList d o = h :: parents ->
  DraftType (d h) ∈ ["Wall"; "Structure"; "Precast"] ->
  o ∉ Additions (d h) ->
  o ∉ Subtractions (d h) ->
  removeComponents objectsList d = (Raise AttributeError, d).
Proof.
  intros Hl Hin Htp Ha Hs. unfold removeComponents. rewrite Hl. simpl.
  unfold bind at 1. unfold detach. unfold bind at 1. rewrite Hin.
  unfold leave_parent.
  rewrite bool_decide_false.
  2:{ intros Hg.
      repeat (apply elem_of_cons in Htp as [Htp|Htp];
              [rewrite Htp in Hg;
               by repeat (apply elem_of_cons in Hg as [Hg|Hg];
                          [discriminate Hg|]); inversion Hg|]).
      inversion Htp. }
  rewrite (bool_decide_true (_ ∈ ["Wall"; "Structure"; "Precast"])) by done.
  rewrite (bool_decide_false (o ∈ Additions _)) by done.
  rewrite (bool_decide_false (o ∈ Subtractions _)) by done.
  reflexivity.
Qed.

End DetachFacts.

Lemma removeComponents_base_raises_witness :
  Detach.removeComponents (H := Detach.toy_host)
    (Components.ObjectList [3; 2]%nat) Detach.small_house
  = (Raise AttributeError, Detach.small_house).
Proof.
  apply (removeComponents_base_raises (H := Detach.toy_host)
           (Components.ObjectList [3; 2]%nat) 3%nat 1%nat [] [2%nat]).
  - reflexivity.
  - reflexivity.
  - left.
  - by apply (bool_decide_unpack _).
  - by apply (bool_decide_unpack _).
Defined.
